(** * ElmechBackend: the login route and the [protect] middleware

    A shallow embedding of [src/routes/AuthRoutes.js] (the [POST /login]
    handler and the [protect] middleware that follows it in the same file)
    together with the properties of the token-issuance and
    request-authorization core.

    Conventions of the embedding:
    - a JavaScript string is a [string]; a value that may be [undefined]
      is an [option];
    - an [async] handler is a computation over the state of one request
      (what is attached to [req], what was sent on [res], which
      collaborators were called), that either completes or throws;
    - the collaborators that live outside the repository ([jsonwebtoken],
      the user store behind [User], [bcryptjs], the [next] callback of
      Express) are parameters;
    - [console.log] calls are not modelled. *)

From Stdlib Require Import String Ascii List ZArith NArith Bool Lia.
From Stdlib Require Import DecimalString DecimalZ.
Import ListNotations.

Local Open Scope list_scope.
Local Open Scope string_scope.

(* ================================================================= *)
(** ** JavaScript primitives used by the handlers *)

Module JS.

(** [s.split(sep)] for a one-character separator: the pieces between the
    occurrences of [sep], in order; the empty string gives one empty piece. *)
Fixpoint split (sep : ascii) (s : string) : list string :=
  match s with
  | EmptyString => [EmptyString]
  | String c rest =>
      if Ascii.eqb c sep then EmptyString :: split sep rest
      else match split sep rest with
           | [] => [String c EmptyString]
           | piece :: pieces => String c piece :: pieces
           end
  end.

(** [v] seen as a condition: [undefined] and the empty string are falsy.
    The result is the string itself when it is truthy. *)
Definition truthy (v : option string) : option string :=
  match v with
  | Some (String c rest) => Some (String c rest)
  | _ => None
  end.

(** [arr.includes(x)] on an array of strings. *)
Definition includes (arr : list string) (x : string) : bool :=
  existsb (String.eqb x) arr.

(** Does [c] occur in [s]? *)
Fixpoint occurs (c : ascii) (s : string) : bool :=
  match s with
  | EmptyString => false
  | String d rest => Ascii.eqb d c || occurs c rest
  end.

End JS.

(* ================================================================= *)
(** ** Data *)

(** The fields of a stored user document that the two handlers read. *)
Record User := mkUser {
  _id : string;
  firstName : string;
  lastName : string;
  email : string;
  username : string;
  avatar : string;
  phone : string;
  userRole : string;
  password : string          (* the stored bcrypt hash *)
}.

(** The payload carried by a token. [userId] and [role] are the names the
    handlers use; the two timestamps are in seconds. A refresh token has
    no role. *)
Record Claims := mkClaims {
  userId : string;
  role : option string;
  issuedAt : Z;
  expiresAt : Z
}.

(** Why the codec rejects a token. *)
Inductive VerifyError := TokenMalformed | SignatureInvalid | TokenExpired.

(** A thrown JavaScript error: one of the codec's, or any other [Error]
    with its message. *)
Inductive Exn :=
| JwtError (e : VerifyError)
| Error (msg : string).

(** [error.message]; for the codec's errors, the messages of the
    jsonwebtoken package. *)
Definition exn_message (e : Exn) : string :=
  match e with
  | JwtError TokenMalformed => "jwt malformed"
  | JwtError SignatureInvalid => "invalid signature"
  | JwtError TokenExpired => "jwt expired"
  | Error msg => msg
  end.

(** The [data] object of a successful login response. *)
Record Profile := mkProfile {
  p_firstName : string;
  p_lastName : string;
  p_email : string;
  p_username : string;
  p_avatar : string;
  p_phone : string;
  p_userRole : string
}.

(** [res.status(status).json({ message, accessToken, data })]. *)
Record Response := mkResponse {
  status : Z;
  message : string;
  accessToken : option string;
  data : option Profile
}.

(** A response whose body has a [message] only. *)
Definition plain (st : Z) (msg : string) : Response :=
  mkResponse st msg None None.

(** The request as the handlers read it. *)
Record Request := mkRequest {
  authorization : option string;      (* req.headers.authorization *)
  body_email : option string;         (* req.body.email *)
  body_password : option string       (* req.body.password *)
}.

(** Calls to the collaborators, in the order they are made. *)
Inductive Call :=
| JwtVerify (token secret : string)
| FindById (id : string)
| FindOne (mail : string)
| BcryptCompare (pw hash : string)
| Next (attached : option User).     (* next(), with req.user at that time *)

(** What one request has accumulated. *)
Record Handling := mkHandling {
  req_user : option User;             (* req.user *)
  res_sent : list Response;           (* responses written on res *)
  calls : list Call
}.

Definition fresh : Handling := mkHandling None [] [].

(** The invocations of the downstream operation so far, each with what was
    attached to the request when it was made. *)
Definition invoked (h : Handling) : list (option User) :=
  flat_map (fun c => match c with Next u => [u] | _ => [] end) (calls h).

(* ================================================================= *)
(** ** Handlers as computations *)

Inductive Completion (A : Type) :=
| Normal (a : A)
| Throw (e : Exn).
Arguments Normal {A} a.
Arguments Throw {A} e.

Definition Handler (A : Type) : Type := Handling -> Completion A * Handling.

Definition ret {A} (a : A) : Handler A := fun h => (Normal a, h).

Definition bind {A B} (m : Handler A) (k : A -> Handler B) : Handler B :=
  fun h =>
    match m h with
    | (Normal a, h') => k a h'
    | (Throw e, h') => (Throw e, h')
    end.

(** [try { body } catch (error) { handler(error) }]: what [body] did before
    it threw stays done. *)
Definition try_catch {A} (body : Handler A) (handler : Exn -> Handler A)
  : Handler A :=
  fun h =>
    match body h with
    | (Normal a, h') => (Normal a, h')
    | (Throw e, h') => handler e h'
    end.

(** Calling a collaborator: the call is recorded, its completion is the
    completion of the computation. *)
Definition call {A} (c : Call) (r : Completion A) : Handler A :=
  fun h => (r, mkHandling (req_user h) (res_sent h) (calls h ++ [c])).

(** [res.status(st).json(...)]. *)
Definition send (r : Response) : Handler unit :=
  fun h => (Normal tt, mkHandling (req_user h) (res_sent h ++ [r]) (calls h)).

(** [req.user = u]. *)
Definition set_req_user (u : User) : Handler unit :=
  fun h => (Normal tt, mkHandling (Some u) (res_sent h) (calls h)).

(** Reading [req.user]. *)
Definition get_req_user : Handler (option User) :=
  fun h => (Normal (req_user h), h).

Declare Scope handler_scope.
Delimit Scope handler_scope with handler.
Notation "x <- m ;; k" := (bind m (fun x => k))
  (at level 61, m at next level, right associativity) : handler_scope.
Notation "m ;; k" := (bind m (fun _ => k))
  (at level 61, right associativity) : handler_scope.
Notation "'try' b 'catch' e => k" := (try_catch b (fun e => k))
  (at level 62, b at level 61, e name, k at level 61) : handler_scope.

(* ================================================================= *)
(** ** The [protect] middleware *)

Section Gate.

(** [process.env.ACCESS_TOKEN_SECRET]. *)
Variable ACCESS_TOKEN_SECRET : string.
(** [jwt.verify(token, secret)] of the jsonwebtoken package. *)
Variable jwt_verify : string -> string -> Completion Claims.
(** [User.findById(id)]: the document, [null], or a rejected promise. *)
Variable User_findById : string -> Completion (option User).

(** [req.headers.authorization?.split(' ')[1]]. *)
Definition bearer_token (req : Request) : option string :=
  match authorization req with
  | None => None
  | Some header => nth_error (JS.split " " header) 1
  end.

(** [allowedRoles.length && !allowedRoles.includes(user.userRole)]. *)
Definition role_refused (allowedRoles : list string) (user : User) : bool :=
  negb (Nat.eqb (List.length allowedRoles) 0)
  && negb (JS.includes allowedRoles (userRole user)).

Definition protect (allowedRoles : list string) (req : Request)
    (next : option User -> Completion unit) : Handler unit :=
  (match JS.truthy (bearer_token req) with
   | None => send (plain 401 "Authorization token required")
   | Some token =>
       try (
         decoded <- call (JwtVerify token ACCESS_TOKEN_SECRET)
                         (jwt_verify token ACCESS_TOKEN_SECRET) ;;
         user <- call (FindById (userId decoded))
                      (User_findById (userId decoded)) ;;
         match user with
         | None => send (plain 404 "User not found")
         | Some user =>
             set_req_user user ;;
             if role_refused allowedRoles user
             then send (plain 403 "Access forbidden: Insufficient privileges")
             else (attached <- get_req_user ;;
                   call (Next attached) (next attached))
         end
       ) catch error => send (plain 401 "Invalid or expired token")
   end)%handler.

(** An exception raised inside the [try] block of [protect], by one of
    the three calls made there. *)
Inductive raised_in_try (allowedRoles : list string)
    (next : option User -> Completion unit) (token : string) : Exn -> Prop :=
| raised_by_verify e :
    jwt_verify token ACCESS_TOKEN_SECRET = Throw e ->
    raised_in_try allowedRoles next token e
| raised_by_store decoded e :
    jwt_verify token ACCESS_TOKEN_SECRET = Normal decoded ->
    User_findById (userId decoded) = Throw e ->
    raised_in_try allowedRoles next token e
| raised_by_next decoded user e :
    jwt_verify token ACCESS_TOKEN_SECRET = Normal decoded ->
    User_findById (userId decoded) = Normal (Some user) ->
    role_refused allowedRoles user = false ->
    next (Some user) = Throw e ->
    raised_in_try allowedRoles next token e.

End Gate.

(* ================================================================= *)
(** ** The token codec *)

(** Modelled from the spec: the text encoding of the fields of a token (the
    jsonwebtoken package is not under src/). A token is "an opaque signed
    string"; here every field is written in hexadecimal, so that a field
    contains neither a dot nor a space. *)
Module Hex.

(** The sixteen digits. *)
Definition digit (n : N) : ascii :=
  match n with
  | 0%N => "0" | 1%N => "1" | 2%N => "2" | 3%N => "3"
  | 4%N => "4" | 5%N => "5" | 6%N => "6" | 7%N => "7"
  | 8%N => "8" | 9%N => "9" | 10%N => "a" | 11%N => "b"
  | 12%N => "c" | 13%N => "d" | 14%N => "e" | _ => "f"
  end%char.

Definition value (c : ascii) : option N :=
  let n := N_of_ascii c in
  if ((48 <=? n) && (n <=? 57))%N then Some (n - 48)%N
  else if ((97 <=? n) && (n <=? 102))%N then Some (n - 87)%N
  else None.

(** Two digits per character. *)
Fixpoint encode (s : string) : string :=
  match s with
  | EmptyString => EmptyString
  | String c rest =>
      let n := N_of_ascii c in
      String (digit (n / 16)) (String (digit (n mod 16)) (encode rest))
  end.

Fixpoint decode (s : string) : option string :=
  match s with
  | EmptyString => Some EmptyString
  | String hi (String lo rest) =>
      match value hi, value lo, decode rest with
      | Some h, Some l, Some tail =>
          Some (String (ascii_of_N (16 * h + l)) tail)
      | _, _, _ => None
      end
  | String _ EmptyString => None
  end.

End Hex.

Module TokenCodec.

(** Modelled from the spec: the configuration surface, "access-token
    secret, refresh-token secret, access TTL, refresh TTL", loaded once. *)
Record Config := mkConfig {
  access_secret : string;     (* ACCESS_TOKEN_SECRET *)
  refresh_secret : string;    (* REFRESH_TOKEN_SECRET *)
  accessTTL : Z;              (* seconds *)
  refreshTTL : Z
}.

(** Timestamps are written in decimal. *)
Definition string_of_Z (z : Z) : string :=
  NilEmpty.string_of_int (Z.to_int z).

Definition Z_of_string (s : string) : option Z :=
  option_map Z.of_int (NilEmpty.int_of_string s).

(** The role field: empty when the claims carry no role. *)
Definition role_field (r : option string) : string :=
  match r with
  | None => EmptyString
  | Some r => String "r"%char r
  end.

Definition field_role (s : string) : option (option string) :=
  match s with
  | EmptyString => Some None
  | String c r => if Ascii.eqb c "r"%char then Some (Some r) else None
  end.

Definition join4 (a b c d : string) : string :=
  a ++ "." ++ b ++ "." ++ c ++ "." ++ d.

(** Modelled from the spec: the serialization of Claims inside a token (the
    jsonwebtoken package and [utils/jwt] are not under src/). The four
    fields, each in hexadecimal, separated by dots. *)
Definition serialize (c : Claims) : string :=
  join4 (Hex.encode (userId c))
        (Hex.encode (role_field (role c)))
        (Hex.encode (string_of_Z (issuedAt c)))
        (Hex.encode (string_of_Z (expiresAt c))).

Definition bind_opt {A B} (o : option A) (f : A -> option B) : option B :=
  match o with
  | Some a => f a
  | None => None
  end.

(** Modelled from the spec: parsing a token "into the expected structure":
    the claims, the signed text and the signature. *)
Definition parse (token : string) : option (Claims * string * string) :=
  match JS.split "." token with
  | [u; r; i; e; tag] =>
      bind_opt (Hex.decode u) (fun uid =>
      bind_opt (bind_opt (Hex.decode r) field_role) (fun rl =>
      bind_opt (bind_opt (Hex.decode i) Z_of_string) (fun iat =>
      bind_opt (bind_opt (Hex.decode e) Z_of_string) (fun exp =>
        Some (mkClaims uid rl iat exp, join4 u r i e, tag)))))
  | _ => None
  end.

Section Signed.

(** The keyed signature function: [mac secret text]. *)
Variable mac : string -> string -> string.

(** Modelled from the spec: "serializes and signs" (the jsonwebtoken
    package and [utils/jwt] are not under src/): the serialized claims
    followed by the signature of that text under [secret]. *)
Definition sign (secret : string) (c : Claims) : string :=
  serialize c ++ "." ++ Hex.encode (mac secret (serialize c)).

(** Modelled from the spec: [verify(token, secret) -> Claims] of the Token
    Codec (the jsonwebtoken package is not under src/): [TokenMalformed]
    if the string cannot be parsed, [SignatureInvalid] if the signature
    does not match under [secret], [TokenExpired] if now > expiresAt. *)
Definition verify (now : Z) (token secret : string) : Completion Claims :=
  match parse token with
  | None => Throw (JwtError TokenMalformed)
  | Some (c, text, tag) =>
      if negb (String.eqb tag (Hex.encode (mac secret text)))
      then Throw (JwtError SignatureInvalid)
      else if (now >? expiresAt c)%Z then Throw (JwtError TokenExpired)
      else Normal c
  end.

Variable cfg : Config.
Variable now : Z.

(** Modelled from the spec: [issueAccessToken(subjectId, role)], which the
    login route calls as [generateAccessToken({ userId, role })]
    ([utils/jwt] is not under src/): issuedAt = now, expiresAt = now +
    accessTTL, signed with the access secret. *)
Definition generateAccessToken (uid rl : string) : string :=
  sign (access_secret cfg)
       (mkClaims uid (Some rl) now (now + accessTTL cfg)%Z).

(** Modelled from the spec: [issueRefreshToken(subjectId)], which the login
    route calls as [generateRefreshToken(user._id)] ([utils/jwt] is not
    under src/): no role, expiresAt = now + refreshTTL, signed with the
    refresh secret. *)
Definition generateRefreshToken (uid : string) : string :=
  sign (refresh_secret cfg)
       (mkClaims uid None now (now + refreshTTL cfg)%Z).

End Signed.

End TokenCodec.

(* ================================================================= *)
(** ** The [POST /login] route *)

Section Login.

Variable mac : string -> string -> string.
Variable cfg : TokenCodec.Config.
Variable now : Z.
(** [User.findOne({ email })]. *)
Variable User_findOne : string -> Completion (option User).
(** [bcrypt.compare(password, hash)]. *)
Variable bcrypt_compare : string -> string -> Completion bool.

Definition profile_of (user : User) : Profile :=
  mkProfile (firstName user) (lastName user) (email user) (username user)
            (avatar user) (phone user) (userRole user).

Definition login (req : Request) : Handler unit :=
  (try (
     match JS.truthy (body_email req) with
     | None => send (plain 400 "Email is required.")
     | Some mail =>
     match JS.truthy (body_password req) with
     | None => send (plain 400 "Password is required.")
     | Some pw =>
         user <- call (FindOne mail) (User_findOne mail) ;;
         match user with
         | None => send (plain 400 "Invalid credentials.")
         | Some user =>
             isMatch <- call (BcryptCompare pw (password user))
                             (bcrypt_compare pw (password user)) ;;
             if negb isMatch
             then send (plain 400 "Invalid credentials.")
             else
               let accessToken :=
                 TokenCodec.generateAccessToken mac cfg now
                   (_id user) (userRole user) in
               let refreshToken :=
                 TokenCodec.generateRefreshToken mac cfg now (_id user) in
               send (mkResponse 200 "Login successful."
                       (Some accessToken) (Some (profile_of user)))
         end
     end
     end
   ) catch error => send (plain 500 (exn_message error)))%handler.

End Login.

(* ================================================================= *)
(** ** A concrete world to run the handlers in *)

Module Demo.

(** A signature function that only serves to run examples: the key, a
    colon, the text. *)
Definition mac (secret text : string) : string := secret ++ ":" ++ text.

Definition cfg : TokenCodec.Config :=
  TokenCodec.mkConfig "access-secret" "refresh-secret" 900 604800.

Definition alice : User :=
  mkUser "u1" "Alice" "Liddell" "alice@example.org" "alice01" "a.png"
         "555-0100" "user" "$2a$10$alicehash".

Definition root : User :=
  mkUser "u2" "Rhoda" "Root" "root@example.org" "root02" "r.png"
         "555-0101" "admin" "$2a$10$roothash".

Definition users : list User := [alice; root].

Definition findById (db : list User) (id : string) : Completion (option User) :=
  Normal (find (fun u => String.eqb (_id u) id) db).

Definition findOne (db : list User) (mail : string) : Completion (option User) :=
  Normal (find (fun u => String.eqb (email u) mail) db).

(** Stands for [bcrypt.compare]: the stored hash of [pw] is taken to be
    ["$2a$10$"] followed by [pw]. *)
Definition compare (pw hash : string) : Completion bool :=
  Normal (String.eqb ("$2a$10$" ++ pw) hash).

Definition bearer (token : string) : Request :=
  mkRequest (Some ("Bearer " ++ token)) None None.

Definition credentials (mail pw : string) : Request :=
  mkRequest None (Some mail) (Some pw).

(** The gate at time [now], over the store [db]. *)
Definition gate (now : Z) (db : list User) (allowedRoles : list string)
    (req : Request) (next : option User -> Completion unit)
  : Completion unit * Handling :=
  protect (TokenCodec.access_secret cfg) (TokenCodec.verify mac now)
          (findById db) allowedRoles req next fresh.

Definition proceed (_ : option User) : Completion unit := Normal tt.

(** A downstream handler that throws. *)
Definition crash (_ : option User) : Completion unit :=
  Throw (Error "handler failed").

(** A store that cannot be reached. *)
Definition unreachable (_ : string) : Completion (option User) :=
  Throw (Error "connection refused").

(** Tokens issued at time 1000. *)
Definition alice_token : string :=
  TokenCodec.generateAccessToken mac cfg 1000 "u1" "user".

Definition alice_claims : Claims := mkClaims "u1" (Some "user") 1000 1900.

Definition alice_refresh : string :=
  TokenCodec.generateRefreshToken mac cfg 1000 "u1".

(** A token whose subject is not in [users]. *)
Definition ghost_token : string :=
  TokenCodec.generateAccessToken mac cfg 1000 "u9" "user".

Definition ghost_claims : Claims := mkClaims "u9" (Some "user") 1000 1900.

End Demo.

(* ================================================================= *)
(** ** The [POST /signup] route *)

Module Signup.

(** [req.body] of a signup request: the seven fields the route reads, the
    text fields as strings and [terms] as a boolean. *)
Record Body := mkBody {
  b_firstName : option string;
  b_lastName : option string;
  b_email : option string;
  b_phone : option string;
  b_password : option string;
  b_gender : option string;
  b_terms : option bool
}.

(** The object given to [new User({ ... })]. *)
Record Document := mkDocument {
  d_firstName : string;
  d_lastName : string;
  d_email : string;
  d_phone : string;
  d_password : string;
  d_gender : string;
  d_terms : bool;
  d_username : string;
  d_avatar : string;
  d_userRole : string
}.

(** Calls to the collaborators of the route, in the order they are made. *)
Inductive Effect :=
| LookupEmail (mail : string)                 (* User.findOne({ email }) *)
| GenerateUsername (mail : string)
| FetchAvatar (gender : string)
| BcryptHash (pw : string) (rounds : Z)
| Save (doc : Document).                      (* newUser.save() *)

(** What one signup request has accumulated. *)
Record Progress := mkProgress {
  sent : list Response;
  effects : list Effect
}.

Definition start : Progress := mkProgress [] [].

Definition Step (A : Type) : Type := Progress -> Completion A * Progress.

Definition bind {A B} (m : Step A) (k : A -> Step B) : Step B :=
  fun p =>
    match m p with
    | (Normal a, p') => k a p'
    | (Throw e, p') => (Throw e, p')
    end.

Definition try_catch {A} (body : Step A) (handler : Exn -> Step A) : Step A :=
  fun p =>
    match body p with
    | (Normal a, p') => (Normal a, p')
    | (Throw e, p') => handler e p'
    end.

Definition call {A} (c : Effect) (r : Completion A) : Step A :=
  fun p => (r, mkProgress (sent p) (effects p ++ [c])).

Definition send (r : Response) : Step unit :=
  fun p => (Normal tt, mkProgress (sent p ++ [r]) (effects p)).

Declare Scope signup_scope.
Delimit Scope signup_scope with signup.
Notation "x <- m ;; k" := (bind m (fun x => k))
  (at level 61, m at next level, right associativity) : signup_scope.
Notation "m ;; k" := (bind m (fun _ => k))
  (at level 61, right associativity) : signup_scope.
Notation "'try' b 'catch' e => k" := (try_catch b (fun e => k))
  (at level 62, b at level 61, e name, k at level 61) : signup_scope.

(** [["Male", "Female"].includes(gender)]; the gender itself when it is
    one of the two. *)
Definition listed_gender (gender : option string) : option string :=
  match gender with
  | Some g => if JS.includes ["Male"; "Female"] g then Some g else None
  | None => None
  end.

Section Route.

(** [User.findOne({ email })]. *)
Variable User_findOne : string -> Completion (option User).
(** [generateUsername(email)] of [utils/userNameGenerator]. *)
Variable generateUsername : string -> Completion string.
(** [fetchAvatar(gender)] of [utils/avtarGenerator]. *)
Variable fetchAvatar : string -> Completion string.
(** [bcrypt.hash(password, rounds)]. *)
Variable bcrypt_hash : string -> Z -> Completion string.
(** [newUser.save()]. *)
Variable save : Document -> Completion unit.

Definition signup (body : Body) : Step unit :=
  (try (
     match JS.truthy (b_firstName body) with
     | None => send (plain 400 "First Name is required.")
     | Some firstName =>
     match JS.truthy (b_lastName body) with
     | None => send (plain 400 "Last Name is required.")
     | Some lastName =>
     match JS.truthy (b_email body) with
     | None => send (plain 400 "Email is required.")
     | Some email =>
     match JS.truthy (b_phone body) with
     | None => send (plain 400 "Phone number is required.")
     | Some phone =>
     match JS.truthy (b_password body) with
     | None => send (plain 400 "Password is required.")
     | Some password =>
     match listed_gender (b_gender body) with
     | None => send (plain 400 "Invalid gender.")
     | Some gender =>
     match b_terms body with
     | None | Some false => send (plain 400 "Terms must be accepted.")
     | Some true =>
         existingUser <- call (LookupEmail email) (User_findOne email) ;;
         match existingUser with
         | Some _ => send (plain 400 "Email is already registered.")
         | None =>
             username <- call (GenerateUsername email)
                              (generateUsername email) ;;
             avatar <- call (FetchAvatar gender) (fetchAvatar gender) ;;
             hashedPassword <- call (BcryptHash password 10)
                                    (bcrypt_hash password 10) ;;
             let newUser :=
               mkDocument firstName lastName email phone hashedPassword
                          gender true username avatar "user" in
             call (Save newUser) (save newUser) ;;
             send (plain 201
                     "User successfully created. You can now log in.")
         end
     end end end end end end end
   ) catch error => send (plain 500 (exn_message error)))%signup.

(** An exception raised by one of the five calls of the route, for a
    request that passed the seven checks with these values. *)
Inductive raised (firstName lastName email phone password gender : string)
  : Exn -> Prop :=
| raised_by_lookup e :
    User_findOne email = Throw e ->
    raised firstName lastName email phone password gender e
| raised_by_username e :
    User_findOne email = Normal None ->
    generateUsername email = Throw e ->
    raised firstName lastName email phone password gender e
| raised_by_avatar username e :
    User_findOne email = Normal None ->
    generateUsername email = Normal username ->
    fetchAvatar gender = Throw e ->
    raised firstName lastName email phone password gender e
| raised_by_hash username avatar e :
    User_findOne email = Normal None ->
    generateUsername email = Normal username ->
    fetchAvatar gender = Normal avatar ->
    bcrypt_hash password 10 = Throw e ->
    raised firstName lastName email phone password gender e
| raised_by_save username avatar hashedPassword e :
    User_findOne email = Normal None ->
    generateUsername email = Normal username ->
    fetchAvatar gender = Normal avatar ->
    bcrypt_hash password 10 = Normal hashedPassword ->
    save (mkDocument firstName lastName email phone hashedPassword
                     gender true username avatar "user") = Throw e ->
    raised firstName lastName email phone password gender e.

End Route.

(** The seven checks of the route all pass, with these values. *)
Definition accepted (body : Body)
    (firstName lastName email phone password gender : string) : Prop :=
  JS.truthy (b_firstName body) = Some firstName
  /\ JS.truthy (b_lastName body) = Some lastName
  /\ JS.truthy (b_email body) = Some email
  /\ JS.truthy (b_phone body) = Some phone
  /\ JS.truthy (b_password body) = Some password
  /\ listed_gender (b_gender body) = Some gender
  /\ b_terms body = Some true.

(** One of the seven checks fails. *)
Definition refused (body : Body) : Prop :=
  JS.truthy (b_firstName body) = None
  \/ JS.truthy (b_lastName body) = None
  \/ JS.truthy (b_email body) = None
  \/ JS.truthy (b_phone body) = None
  \/ JS.truthy (b_password body) = None
  \/ listed_gender (b_gender body) = None
  \/ b_terms body <> Some true.

End Signup.

Module SignupDemo.

Definition body : Signup.Body :=
  Signup.mkBody (Some "Bob") (Some "Baker") (Some "bob@example.org")
                (Some "555-0102") (Some "hunter2") (Some "Male") (Some true).

(** The same request with the gender in lower case. *)
Definition lower_case_gender : Signup.Body :=
  Signup.mkBody (Some "Bob") (Some "Baker") (Some "bob@example.org")
                (Some "555-0102") (Some "hunter2") (Some "male") (Some true).

(** The same request for an email that [Demo.users] already has. *)
Definition taken : Signup.Body :=
  Signup.mkBody (Some "Bob") (Some "Baker") (Some "alice@example.org")
                (Some "555-0102") (Some "hunter2") (Some "Male") (Some true).

Definition username_of (mail : string) : Completion string :=
  Normal ("user-" ++ mail).

Definition avatar_of (gender : string) : Completion string :=
  Normal (gender ++ ".png").

(** Stands for [bcrypt.hash], in line with [Demo.compare]. *)
Definition hash (pw : string) (_ : Z) : Completion string :=
  Normal ("$2a$10$" ++ pw).

Definition store (_ : Signup.Document) : Completion unit := Normal tt.

(** A store that refuses the write. *)
Definition full (_ : Signup.Document) : Completion unit :=
  Throw (Error "disk quota exceeded").

Definition bob : Signup.Document :=
  Signup.mkDocument "Bob" "Baker" "bob@example.org" "555-0102"
                    "$2a$10$hunter2" "Male" true "user-bob@example.org"
                    "Male.png" "user".

Definition route (save : Signup.Document -> Completion unit)
    (body : Signup.Body) : Completion unit * Signup.Progress :=
  Signup.signup (Demo.findOne Demo.users) username_of avatar_of hash save
                body Signup.start.

End SignupDemo.

Module GateDemo.

Definition secret : string := TokenCodec.access_secret Demo.cfg.

(** A token for the user "u1" that claims the role "admin", while the
    store has the role "user" for that user. *)
Definition stale_token : string :=
  TokenCodec.generateAccessToken Demo.mac Demo.cfg 1000 "u1" "admin".

Definition stale_claims : Claims := mkClaims "u1" (Some "admin") 1000 1900.

(** Headers around [Demo.alice_token]. *)
Definition other_scheme : Request :=
  mkRequest (Some ("Token " ++ Demo.alice_token)) None None.

Definition trailing_text : Request :=
  mkRequest (Some ("Token " ++ Demo.alice_token ++ " extra")) None None.

Definition two_spaces : Request :=
  mkRequest (Some ("Bearer  " ++ Demo.alice_token)) None None.

(** Login requests. *)
Definition no_password : Request :=
  mkRequest None (Some "alice@example.org") None.

Definition alice_login : Request :=
  Demo.credentials "alice@example.org" "alicehash".

Definition run_login (findOne : string -> Completion (option User))
    (req : Request) : Completion unit * Handling :=
  login Demo.mac Demo.cfg 1000 findOne Demo.compare req fresh.

Definition alice_welcome : Response :=
  mkResponse 200 "Login successful." (Some Demo.alice_token)
             (Some (profile_of Demo.alice)).

End GateDemo.

(* ================================================================= *)
(** ** A signature function with short tags *)

Module Checksum.

(** The sum of the character codes of a string. *)
Fixpoint weight (s : string) : N :=
  match s with
  | EmptyString => 0%N
  | String c rest => (N_of_ascii c + weight rest)%N
  end.

(** A keyed checksum of one character: like every signature function of
    bounded length, it gives some pairs of distinct secrets the same tag. *)
Definition mac (secret text : string) : string :=
  String (ascii_of_N ((weight secret + weight text) mod 256)) EmptyString.



(** The secret made of [n] letters. *)
Fixpoint key (n : nat) : string :=
  match n with
  | O => EmptyString
  | S m => String "k"%char (key m)
  end.

End Checksum.

(* ================================================================= *)
(** ** The [POST /login] route on any JSON password *)

(** [login] above reads [req.body.password] as a string or [undefined].
    Here the same route is given with the password read as any scalar JSON
    value, as a JSON body can hold one; on a string or an absent password
    the two agree ([login_json_agrees]). *)
Module LoginJson.

(** A scalar value of a JSON body (numbers: the integers). *)
Inductive Value :=
| Null
| Bool (b : bool)
| Number (n : Z)
| Str (s : string).

(** [typeof v]. *)
Definition typeof (v : Value) : string :=
  match v with
  | Null => "object"
  | Bool _ => "boolean"
  | Number _ => "number"
  | Str _ => "string"
  end.

(** [v] seen as a condition: [undefined], [null], [false], [0] and the
    empty string are falsy. The result is the value when it is truthy. *)
Definition truthy (v : option Value) : option Value :=
  match v with
  | Some (Bool true) => v
  | Some (Number n) => if Z.eqb n 0 then None else v
  | Some (Str (String _ _)) => v
  | _ => None
  end.

Record Body := mkBody {
  b_email : option string;       (* req.body.email *)
  b_password : option Value      (* req.body.password *)
}.

(** Calls to the collaborators of the route, in the order they are made. *)
Inductive Effect :=
| LookupEmail (mail : string)                 (* User.findOne({ email }) *)
| Compare (pw : Value) (hash : string).       (* bcrypt.compare *)

Record Progress := mkProgress {
  sent : list Response;
  effects : list Effect
}.

Definition start : Progress := mkProgress [] [].

Definition Step (A : Type) : Type := Progress -> Completion A * Progress.

Definition bind {A B} (m : Step A) (k : A -> Step B) : Step B :=
  fun p =>
    match m p with
    | (Normal a, p') => k a p'
    | (Throw e, p') => (Throw e, p')
    end.

Definition try_catch {A} (body : Step A) (handler : Exn -> Step A) : Step A :=
  fun p =>
    match body p with
    | (Normal a, p') => (Normal a, p')
    | (Throw e, p') => handler e p'
    end.

Definition call {A} (c : Effect) (r : Completion A) : Step A :=
  fun p => (r, mkProgress (sent p) (effects p ++ [c])).

Definition send (r : Response) : Step unit :=
  fun p => (Normal tt, mkProgress (sent p ++ [r]) (effects p)).

Declare Scope login_scope.
Delimit Scope login_scope with login.
Notation "x <- m ;; k" := (bind m (fun x => k))
  (at level 61, m at next level, right associativity) : login_scope.
Notation "'try' b 'catch' e => k" := (try_catch b (fun e => k))
  (at level 62, b at level 61, e name, k at level 61) : login_scope.

Section Route.

Variable mac : string -> string -> string.
Variable cfg : TokenCodec.Config.
Variable now : Z.
(** [User.findOne({ email })]. *)
Variable User_findOne : string -> Completion (option User).
(** [bcrypt.compare(password, hash)], on any password. *)
Variable bcrypt_compare : Value -> string -> Completion bool.

Definition login (body : Body) : Step unit :=
  (try (
     match JS.truthy (b_email body) with
     | None => send (plain 400 "Email is required.")
     | Some mail =>
     match truthy (b_password body) with
     | None => send (plain 400 "Password is required.")
     | Some pw =>
         user <- call (LookupEmail mail) (User_findOne mail) ;;
         match user with
         | None => send (plain 400 "Invalid credentials.")
         | Some user =>
             isMatch <- call (Compare pw (password user))
                             (bcrypt_compare pw (password user)) ;;
             if negb isMatch
             then send (plain 400 "Invalid credentials.")
             else
               let accessToken :=
                 TokenCodec.generateAccessToken mac cfg now
                   (_id user) (userRole user) in
               let refreshToken :=
                 TokenCodec.generateRefreshToken mac cfg now (_id user) in
               send (mkResponse 200 "Login successful."
                       (Some accessToken) (Some (profile_of user)))
         end
     end
     end
   ) catch error => send (plain 500 (exn_message error)))%login.

End Route.

(** [bcrypt.compare] of bcryptjs on any password: a password that is not a
    string is refused with an error that names the types of the two
    arguments; on strings it is [compare]. *)
Definition compare_any (compare : string -> string -> Completion bool)
    (pw : Value) (hash : string) : Completion bool :=
  match pw with
  | Str s => compare s hash
  | _ => Throw (Error ("Illegal arguments: " ++ typeof pw ++ ", string"))
  end.

(** The body [{ "email": mail, "password": 12345 }]. *)
Definition numeric (mail : string) : Body :=
  mkBody (Some mail) (Some (Number 12345)).

(** The route over [Demo.users], at time 1000. *)
Definition run (body : Body) : Completion unit * Progress :=
  login Demo.mac Demo.cfg 1000 (Demo.findOne Demo.users)
        (compare_any Demo.compare) body start.

End LoginJson.

(* ================================================================= *)
(** * Properties *)

(** ** Strings *)

Lemma append_assoc (a b c : string) : (a ++ b) ++ c = a ++ (b ++ c).
Proof.
  induction a as [|x a IH]; simpl; [reflexivity|].
  now rewrite IH.
Qed.

Lemma append_length (a b : string) :
  String.length (a ++ b) = String.length a + String.length b.
Proof.
  induction a as [|x a IH]; simpl; [reflexivity|].
  now rewrite IH.
Qed.

Lemma append_cancel_r (a b c : string) : a ++ c = b ++ c -> a = b.
Proof.
  revert b; induction a as [|x a IH]; intros [|y b] E; simpl in E.
  - reflexivity.
  - apply (f_equal String.length) in E; simpl in E.
    rewrite append_length in E; lia.
  - apply (f_equal String.length) in E; simpl in E.
    rewrite append_length in E; lia.
  - injection E as -> E. now rewrite (IH _ E).
Qed.

Lemma occurs_append (c : ascii) (a b : string) :
  JS.occurs c (a ++ b) = JS.occurs c a || JS.occurs c b.
Proof.
  induction a as [|x a IH]; simpl; [reflexivity|].
  now rewrite IH, orb_assoc.
Qed.

Lemma split_not_nil (sep : ascii) (s : string) : JS.split sep s <> [].
Proof.
  destruct s as [|c s]; simpl; [discriminate|].
  destruct (Ascii.eqb c sep); [discriminate|].
  destruct (JS.split sep s); discriminate.
Qed.

(** A string without the separator is a single piece. *)
Lemma split_whole (sep : ascii) (s : string) :
  JS.occurs sep s = false -> JS.split sep s = [s].
Proof.
  induction s as [|c s IH]; simpl; [reflexivity|].
  intros H. apply orb_false_iff in H as [Hc Hs].
  rewrite Hc, (IH Hs). reflexivity.
Qed.

(** The first piece ends at the first separator. *)
Lemma split_first (sep : ascii) (a b : string) :
  JS.occurs sep a = false ->
  JS.split sep (a ++ String sep b) = a :: JS.split sep b.
Proof.
  induction a as [|c a IH]; simpl.
  - intros _. now rewrite Ascii.eqb_refl.
  - intros H. apply orb_false_iff in H as [Hc Ha].
    rewrite Hc, (IH Ha). reflexivity.
Qed.

(** ** Hexadecimal fields *)

Lemma hex_decode_encode (s : string) : Hex.decode (Hex.encode s) = Some s.
Proof.
  induction s as [|c s IH]; [reflexivity|].
  change (Hex.decode (Hex.encode (String c s)))
    with (match Hex.value (Hex.digit (N_of_ascii c / 16)),
                Hex.value (Hex.digit (N_of_ascii c mod 16)),
                Hex.decode (Hex.encode s) with
          | Some h, Some l, Some tail =>
              Some (String (ascii_of_N (16 * h + l)) tail)
          | _, _, _ => None
          end).
  rewrite IH.
  destruct c as [[] [] [] [] [] [] [] []]; reflexivity.
Qed.


(** Only digits occur in an encoded field. *)
Lemma hex_encode_digits (c : ascii) (s : string) :
  Hex.value c = None -> JS.occurs c (Hex.encode s) = false.
Proof.
  intros Hc. induction s as [|x s IH]; [reflexivity|].
  change (Hex.encode (String x s))
    with (String (Hex.digit (N_of_ascii x / 16))
            (String (Hex.digit (N_of_ascii x mod 16)) (Hex.encode s))).
  cbn [JS.occurs]. rewrite IH, orb_false_r.
  apply orb_false_iff; split; apply Ascii.eqb_neq; intros <-;
    destruct x as [[] [] [] [] [] [] [] []]; discriminate Hc.
Qed.

Lemma hex_encode_no_dot (s : string) : JS.occurs "." (Hex.encode s) = false.
Proof. now apply hex_encode_digits. Qed.

Lemma hex_encode_no_space (s : string) : JS.occurs " " (Hex.encode s) = false.
Proof. now apply hex_encode_digits. Qed.

(** ** The codec *)

Lemma Z_of_string_of_Z (z : Z) :
  TokenCodec.Z_of_string (TokenCodec.string_of_Z z) = Some z.
Proof.
  unfold TokenCodec.Z_of_string, TokenCodec.string_of_Z.
  rewrite NilEmpty.isi. simpl. now rewrite DecimalZ.of_to.
Qed.

Lemma field_role_role_field (r : option string) :
  TokenCodec.field_role (TokenCodec.role_field r) = Some r.
Proof. destruct r; reflexivity. Qed.

Lemma split_join4_tag (a b c d tag : string) :
  JS.occurs "." a = false -> JS.occurs "." b = false ->
  JS.occurs "." c = false -> JS.occurs "." d = false ->
  JS.occurs "." tag = false ->
  JS.split "." (TokenCodec.join4 a b c d ++ "." ++ tag) = [a; b; c; d; tag].
Proof.
  intros Ha Hb Hc Hd Ht. unfold TokenCodec.join4.
  rewrite !append_assoc. cbn [append].
  rewrite (split_first "." a) by assumption.
  rewrite (split_first "." b) by assumption.
  rewrite (split_first "." c) by assumption.
  rewrite (split_first "." d) by assumption.
  now rewrite split_whole.
Qed.

Section CodecFacts.

Variable mac : string -> string -> string.

(** A signed token parses back to the claims it was made from. *)
Lemma parse_sign (secret : string) (c : Claims) :
  TokenCodec.parse (TokenCodec.sign mac secret c)
  = Some (c, TokenCodec.serialize c,
          Hex.encode (mac secret (TokenCodec.serialize c))).
Proof.
  unfold TokenCodec.parse, TokenCodec.sign.
  unfold TokenCodec.serialize at 1.
  rewrite split_join4_tag by apply hex_encode_no_dot.
  rewrite !hex_decode_encode. cbn [TokenCodec.bind_opt].
  rewrite field_role_role_field, !Z_of_string_of_Z.
  cbn [TokenCodec.bind_opt]. now destruct c.
Qed.

(** Verifying under the signing secret, not after expiry. *)
Lemma verify_sign_same (t : Z) (secret : string) (c : Claims) :
  (t <= expiresAt c)%Z ->
  TokenCodec.verify mac t (TokenCodec.sign mac secret c) secret = Normal c.
Proof.
  intros Ht. unfold TokenCodec.verify. rewrite parse_sign.
  rewrite String.eqb_refl. cbn [negb].
  destruct (Z.gtb_spec t (expiresAt c)); [lia | reflexivity].
Qed.

(** After expiry the token is refused, whatever the secret. *)
Lemma verify_sign_expired (t : Z) (secret secret' : string) (c : Claims) :
  (t > expiresAt c)%Z ->
  exists e, TokenCodec.verify mac t (TokenCodec.sign mac secret c) secret'
            = Throw (JwtError e).
Proof.
  intros Ht. unfold TokenCodec.verify. rewrite parse_sign.
  destruct (negb _); [now eexists|].
  destruct (Z.gtb_spec t (expiresAt c)); [now eexists | lia].
Qed.

(** The codec rejects a token in one of its three ways only. *)
Lemma verify_throws_jwt_error (t : Z) (token secret : string) (x : Exn) :
  TokenCodec.verify mac t token secret = Throw x -> exists e, x = JwtError e.
Proof.
  unfold TokenCodec.verify.
  destruct (TokenCodec.parse token) as [[[c text] tag]|];
    [|intros [= <-]; now eexists].
  destruct (negb _); [intros [= <-]; now eexists|].
  destruct (_ >? _)%Z; [intros [= <-]; now eexists | discriminate].
Qed.


Lemma verify_sign_tags_agree (t : Z) (secret secret' : string) (c : Claims) :
  mac secret (TokenCodec.serialize c) = mac secret' (TokenCodec.serialize c) ->
  (t <= expiresAt c)%Z ->
  TokenCodec.verify mac t (TokenCodec.sign mac secret c) secret' = Normal c.
Proof.
  intros E Ht. unfold TokenCodec.verify. rewrite parse_sign, E.
  rewrite String.eqb_refl. cbn [negb].
  destruct (Z.gtb_spec t (expiresAt c)); [lia | reflexivity].
Qed.

End CodecFacts.

(** ** Signature functions with finitely many tags *)

Lemma key_length (n : nat) : String.length (Checksum.key n) = n.
Proof. induction n as [|n IH]; simpl; [reflexivity | now rewrite IH]. Qed.

Lemma key_inj (n m : nat) : Checksum.key n = Checksum.key m -> n = m.
Proof.
  intros E. apply (f_equal String.length) in E. now rewrite !key_length in E.
Qed.

(** A list without repetition whose image has one: two of its elements
    have the same image. *)
Lemma repeated_image (f : nat -> string) (xs : list nat) :
  NoDup xs -> ~ NoDup (map f xs) ->
  exists x y, In x xs /\ In y xs /\ x <> y /\ f x = f y.
Proof.
  induction xs as [|x r IH]; intros Hxs Hfs.
  - exfalso. apply Hfs. constructor.
  - inversion Hxs as [|? ? Hx Hr]; subst.
    destruct (in_dec string_dec (f x) (map f r)) as [Hin|Hout].
    + apply in_map_iff in Hin as (y & Hy & Hyr).
      exists x, y. repeat split; [now left | now right | | now symmetry].
      intros ->. contradiction.
    + destruct IH as (a & b & Ha & Hb & Hab & Hf); [assumption | |].
      * intros Hnd. apply Hfs. cbn. now constructor.
      * exists a, b. repeat split; [now right | now right | |]; assumption.
Qed.

(** Whatever the signature function, if its tags on a text all come from a
    finite list, two distinct secrets sign that text alike. *)
Lemma bounded_mac_confuses_two_secrets (mac : string -> string -> string)
    (tags : list string) (text : string) :
  (forall k, In (mac k text) tags) ->
  exists k k', k <> k' /\ mac k text = mac k' text.
Proof.
  intros Hin.
  pose (f := fun n => mac (Checksum.key n) text).
  pose (xs := seq 0 (S (List.length tags))).
  destruct (repeated_image f xs) as (x & y & _ & _ & Hxy & Hf).
  - apply seq_NoDup.
  - intros Hnd.
    assert (List.length (map f xs) <= List.length tags) as Hle.
    { apply NoDup_incl_length; [assumption|].
      intros tag Ht. apply in_map_iff in Ht as (n & <- & _). apply Hin. }
    unfold xs in Hle. rewrite length_map, length_seq in Hle. lia.
  - exists (Checksum.key x), (Checksum.key y). split; [|exact Hf].
    intros E. apply Hxy. now apply key_inj.
Qed.

(** So for every such signature function there are two distinct secrets
    with which a refresh token verifies against the access secret. *)
Lemma bounded_mac_lets_a_refresh_token_pass
    (mac : string -> string -> string) (tags : list string)
    (now accessTTL refreshTTL : Z) (uid : string) :
  (forall k text, In (mac k text) tags) ->
  exists access refresh,
    access <> refresh
    /\ forall t, (t <= now + refreshTTL)%Z ->
         TokenCodec.verify mac t
           (TokenCodec.generateRefreshToken mac
              (TokenCodec.mkConfig access refresh accessTTL refreshTTL)
              now uid)
           access
         = Normal (mkClaims uid None now (now + refreshTTL)).
Proof.
  intros Hin.
  destruct (bounded_mac_confuses_two_secrets mac tags
              (TokenCodec.serialize
                 (mkClaims uid None now (now + refreshTTL)))
              (fun k => Hin k _)) as (k & k' & Hne & E).
  exists k', k. split; [now apply not_eq_sym|].
  intros t Ht. unfold TokenCodec.generateRefreshToken.
  cbn [TokenCodec.refresh_secret TokenCodec.refreshTTL].
  now apply verify_sign_tags_agree.
Qed.

(** A signed token is one non-empty word: a [Bearer] header carries it
    whole. *)
Lemma sign_no_space mac (secret : string) (c : Claims) :
  JS.occurs " " (TokenCodec.sign mac secret c) = false.
Proof.
  unfold TokenCodec.sign, TokenCodec.serialize, TokenCodec.join4.
  rewrite !occurs_append. cbn [JS.occurs].
  now rewrite !hex_encode_no_space.
Qed.

Lemma sign_not_empty mac (secret : string) (c : Claims) :
  TokenCodec.sign mac secret c <> "".
Proof.
  intros E. apply (f_equal (JS.occurs ".")) in E.
  unfold TokenCodec.sign in E. rewrite !occurs_append in E.
  cbn in E. rewrite orb_true_r in E. discriminate.
Qed.

Lemma bearer_token_word (token : string) e p :
  JS.occurs " " token = false -> token <> "" ->
  JS.truthy (bearer_token (mkRequest (Some ("Bearer " ++ token)) e p))
  = Some token.
Proof.
  intros Hs Hn. unfold bearer_token. cbn [authorization].
  change ("Bearer " ++ token) with ("Bearer" ++ String " " token).
  rewrite split_first by reflexivity. rewrite split_whole by assumption.
  destruct token; [contradiction | reflexivity].
Qed.

Lemma bearer_token_signed mac (secret : string) (c : Claims) e p :
  JS.truthy (bearer_token
               (mkRequest (Some ("Bearer " ++ TokenCodec.sign mac secret c))
                          e p))
  = Some (TokenCodec.sign mac secret c).
Proof.
  apply bearer_token_word; [apply sign_no_space | apply sign_not_empty].
Qed.

(** A token issued by the login route, sent in a [Bearer] header before it
    expires, is extracted whole and verifies under the access secret: the
    premises of the gate's properties hold of every issued token. *)
Lemma issued_token_is_presentable mac cfg (now t : Z) (uid rl : string) e p :
  (t <= now + TokenCodec.accessTTL cfg)%Z ->
  let token := TokenCodec.generateAccessToken mac cfg now uid rl in
  JS.truthy (bearer_token (mkRequest (Some ("Bearer " ++ token)) e p))
  = Some token
  /\ TokenCodec.verify mac t token (TokenCodec.access_secret cfg)
     = Normal (mkClaims uid (Some rl) now (now + TokenCodec.accessTTL cfg)).
Proof.
  intros Ht token. split.
  - apply bearer_token_signed.
  - apply verify_sign_same. exact Ht.
Qed.

(* ================================================================= *)
(** ** The gate, path by path *)

Lemma invoked_extend (u : option User) (res : list Response)
    (h : Handling) (more : list Call) :
  invoked (mkHandling u res (calls h ++ more))
  = (invoked h ++ invoked (mkHandling None [] more))%list.
Proof. unfold invoked; cbn [calls]. apply flat_map_app. Qed.

Lemma role_refused_iff (allowedRoles : list string) (user : User) :
  role_refused allowedRoles user = true
  <-> allowedRoles <> [] /\ ~ In (userRole user) allowedRoles.
Proof.
  unfold role_refused, JS.includes.
  rewrite andb_true_iff, !negb_true_iff, Nat.eqb_neq.
  split; intros [Hlen Hin]; split.
  - intros ->. now apply Hlen.
  - intros Hmem.
    assert (existsb (String.eqb (userRole user)) allowedRoles = true) as E.
    { apply existsb_exists. exists (userRole user).
      split; [assumption | apply String.eqb_refl]. }
    congruence.
  - destruct allowedRoles; [contradiction | discriminate].
  - destruct (existsb _ allowedRoles) eqn:E; [|reflexivity].
    apply existsb_exists in E as (r & Hr & Heq).
    apply String.eqb_eq in Heq. subst r. contradiction.
Qed.

Lemma role_accepted_iff (allowedRoles : list string) (user : User) :
  role_refused allowedRoles user = false
  <-> allowedRoles = [] \/ In (userRole user) allowedRoles.
Proof.
  split.
  - intros H. destruct allowedRoles as [|r rs]; [now left | right].
    destruct (in_dec string_dec (userRole user) (r :: rs)) as [|Hn];
      [assumption|].
    assert (role_refused (r :: rs) user = true) as E
      by (apply role_refused_iff; split; [discriminate | assumption]).
    congruence.
  - intros H. destruct (role_refused allowedRoles user) eqn:E; [|reflexivity].
    apply role_refused_iff in E as [Hne Hn]. destruct H; contradiction.
Qed.

Section GateFacts.

Variable secret : string.
Variable jwt_verify : string -> string -> Completion Claims.
Variable User_findById : string -> Completion (option User).

Local Abbreviation gate := (protect secret jwt_verify User_findById).

Variable allowedRoles : list string.
Variable req : Request.
Variable next : option User -> Completion unit.
Variable h : Handling.

Ltac enter Htok :=
  unfold protect; rewrite Htok;
  unfold try_catch, bind, call, send, set_req_user, get_req_user.

Lemma protect_no_token :
  JS.truthy (bearer_token req) = None ->
  gate allowedRoles req next h
  = (Normal tt,
     mkHandling (req_user h)
       (res_sent h ++ [plain 401 "Authorization token required"])
       (calls h)).
Proof. intros Htok. unfold protect. now rewrite Htok. Qed.

Variable token : string.
Hypothesis extracted : JS.truthy (bearer_token req) = Some token.

Lemma protect_verify_throws e :
  jwt_verify token secret = Throw e ->
  gate allowedRoles req next h
  = (Normal tt,
     mkHandling (req_user h)
       (res_sent h ++ [plain 401 "Invalid or expired token"])
       (calls h ++ [JwtVerify token secret])).
Proof. intros Hv. enter extracted. now rewrite Hv. Qed.

Variable decoded : Claims.
Hypothesis verified : jwt_verify token secret = Normal decoded.

Lemma protect_store_throws e :
  User_findById (userId decoded) = Throw e ->
  gate allowedRoles req next h
  = (Normal tt,
     mkHandling (req_user h)
       (res_sent h ++ [plain 401 "Invalid or expired token"])
       (calls h ++ [JwtVerify token secret; FindById (userId decoded)])).
Proof.
  intros Hf. enter extracted. rewrite verified; cbn. rewrite Hf; cbn.
  now rewrite <- app_assoc.
Qed.

Lemma protect_not_found :
  User_findById (userId decoded) = Normal None ->
  gate allowedRoles req next h
  = (Normal tt,
     mkHandling (req_user h)
       (res_sent h ++ [plain 404 "User not found"])
       (calls h ++ [JwtVerify token secret; FindById (userId decoded)])).
Proof.
  intros Hf. enter extracted. rewrite verified; cbn. rewrite Hf; cbn.
  now rewrite <- app_assoc.
Qed.

Variable user : User.
Hypothesis resolved : User_findById (userId decoded) = Normal (Some user).

Lemma protect_forbidden :
  role_refused allowedRoles user = true ->
  gate allowedRoles req next h
  = (Normal tt,
     mkHandling (Some user)
       (res_sent h
        ++ [plain 403 "Access forbidden: Insufficient privileges"])
       (calls h ++ [JwtVerify token secret; FindById (userId decoded)])).
Proof.
  intros Hr. enter extracted. rewrite verified; cbn. rewrite resolved; cbn.
  rewrite Hr. now rewrite <- app_assoc.
Qed.

Lemma protect_proceeds :
  role_refused allowedRoles user = false ->
  next (Some user) = Normal tt ->
  gate allowedRoles req next h
  = (Normal tt,
     mkHandling (Some user) (res_sent h)
       (calls h ++ [JwtVerify token secret; FindById (userId decoded);
                    Next (Some user)])).
Proof.
  intros Hr Hn. enter extracted. rewrite verified; cbn.
  rewrite resolved; cbn. rewrite Hr; cbn. rewrite Hn. now rewrite <- !app_assoc.
Qed.

Lemma protect_next_throws e :
  role_refused allowedRoles user = false ->
  next (Some user) = Throw e ->
  gate allowedRoles req next h
  = (Normal tt,
     mkHandling (Some user)
       (res_sent h ++ [plain 401 "Invalid or expired token"])
       (calls h ++ [JwtVerify token secret; FindById (userId decoded);
                    Next (Some user)])).
Proof.
  intros Hr Hn. enter extracted. rewrite verified; cbn.
  rewrite resolved; cbn. rewrite Hr; cbn. rewrite Hn. now rewrite <- !app_assoc.
Qed.

End GateFacts.

(** The gate never lets an exception escape: it always completes. *)
Lemma protect_completes secret jwt_verify User_findById allowedRoles req
    next h :
  fst (protect secret jwt_verify User_findById allowedRoles req next h)
  = Normal tt.
Proof.
  destruct (JS.truthy (bearer_token req)) as [token|] eqn:Htok;
    [|now rewrite protect_no_token].
  destruct (jwt_verify token secret) as [decoded|e] eqn:Hv;
    [|now rewrite (protect_verify_throws _ _ _ _ _ _ _ _ Htok _ Hv)].
  destruct (User_findById (userId decoded)) as [[user|]|e] eqn:Hf.
  - destruct (role_refused allowedRoles user) eqn:Hr.
    + now rewrite (protect_forbidden _ _ _ _ _ _ _ _ Htok _ Hv _ Hf Hr).
    + destruct (next (Some user)) as [[]|e] eqn:Hn.
      * now rewrite (protect_proceeds _ _ _ _ _ _ _ _ Htok _ Hv _ Hf Hr Hn).
      * now rewrite
          (protect_next_throws _ _ _ _ _ _ _ _ Htok _ Hv _ Hf _ Hr Hn).
  - now rewrite (protect_not_found _ _ _ _ _ _ _ _ Htok _ Hv Hf).
  - now rewrite (protect_store_throws _ _ _ _ _ _ _ _ Htok _ Hv _ Hf).
Qed.

(** ** Which headers carry no token *)

Lemma no_token_without_header (req : Request) :
  authorization req = None -> JS.truthy (bearer_token req) = None.
Proof. intros H. unfold bearer_token. now rewrite H. Qed.

Lemma no_token_in_one_word (req : Request) (header : string) :
  authorization req = Some header ->
  JS.occurs " " header = false ->
  JS.truthy (bearer_token req) = None.
Proof.
  intros H Hs. unfold bearer_token. rewrite H.
  now rewrite split_whole.
Qed.

Lemma no_token_iff (req : Request) :
  JS.truthy (bearer_token req) = None
  <-> authorization req = None
      \/ exists header,
           authorization req = Some header
           /\ (nth_error (JS.split " " header) 1 = None
               \/ nth_error (JS.split " " header) 1 = Some "").
Proof.
  unfold bearer_token. destruct (authorization req) as [header|].
  - split.
    + intros H. right. exists header. split; [reflexivity|].
      destruct (nth_error (JS.split " " header) 1) as [[|c t]|];
        [now right | discriminate H | now left].
    + intros [H|(hd & [= <-] & [H|H])]; [discriminate H| |]; now rewrite H.
  - split; [now left | reflexivity].
Qed.

(* ================================================================= *)
(** ** The authorization gate *)

Section GateClaims.

Variable secret : string.
Variable jwt_verify : string -> string -> Completion Claims.
Variable User_findById : string -> Completion (option User).

Local Abbreviation gate := (protect secret jwt_verify User_findById).

Variable allowedRoles : list string.
Variable req : Request.
Variable next : option User -> Completion unit.
Variable h : Handling.

(** C5: when no bearer token can be extracted from the authorization
    header (the header is absent, has no second space-separated piece, or
    that piece is empty), the gate answers 401 "Authorization token
    required" and stops: no call to the codec or to the user store is made,
    the downstream operation is not invoked, nothing is attached to the
    request. *)
Theorem protect_requires_token :
  JS.truthy (bearer_token req) = None ->
  fst (gate allowedRoles req next h) = Normal tt
  /\ res_sent (snd (gate allowedRoles req next h))
     = (res_sent h ++ [plain 401 "Authorization token required"])%list
  /\ calls (snd (gate allowedRoles req next h)) = calls h
  /\ req_user (snd (gate allowedRoles req next h)) = req_user h.
Proof.
  intros Htok. rewrite protect_no_token by assumption. now cbn.
Qed.

Variable token : string.
Hypothesis extracted : JS.truthy (bearer_token req) = Some token.

(** C4: whichever way the codec rejects the extracted token (malformed,
    invalid signature, expired), the gate answers 401 "Invalid or expired
    token", makes no store lookup and does not invoke the downstream
    operation; any two rejected tokens get the same response, so the cause
    cannot be told from it. *)
Theorem verification_failures_collapse (e : VerifyError) :
  jwt_verify token secret = Throw (JwtError e) ->
  fst (gate allowedRoles req next h) = Normal tt
  /\ res_sent (snd (gate allowedRoles req next h))
     = (res_sent h ++ [plain 401 "Invalid or expired token"])%list
  /\ calls (snd (gate allowedRoles req next h))
     = (calls h ++ [JwtVerify token secret])%list
  /\ (forall req' token' e',
        JS.truthy (bearer_token req') = Some token' ->
        jwt_verify token' secret = Throw (JwtError e') ->
        res_sent (snd (gate allowedRoles req' next h))
        = res_sent (snd (gate allowedRoles req next h))).
Proof.
  intros Hv.
  rewrite (protect_verify_throws _ _ _ _ _ _ _ _ extracted _ Hv). cbn.
  repeat split; try reflexivity.
  intros req' token' e' Htok' Hv'.
  now rewrite (protect_verify_throws _ _ _ _ _ _ _ _ Htok' _ Hv').
Qed.

(** C9: an exception raised inside the [try] block, by the verification, by
    the store lookup or by the downstream handler called through [next], is
    caught by the one handler: the gate itself completes and answers 401
    "Invalid or expired token". A failing store is answered like an invalid
    token. *)
Theorem exceptions_in_try_answer_401 (e : Exn) :
  raised_in_try secret jwt_verify User_findById allowedRoles next token e ->
  fst (gate allowedRoles req next h) = Normal tt
  /\ res_sent (snd (gate allowedRoles req next h))
     = (res_sent h ++ [plain 401 "Invalid or expired token"])%list.
Proof.
  intros [e' Hv | decoded e' Hv Hf | decoded user e' Hv Hf Hr Hn].
  - rewrite (protect_verify_throws _ _ _ _ _ _ _ _ extracted _ Hv).
    now cbn.
  - rewrite (protect_store_throws _ _ _ _ _ _ _ _ extracted _ Hv _ Hf).
    now cbn.
  - rewrite (protect_next_throws _ _ _ _ _ _ _ _ extracted _ Hv _ Hf _ Hr Hn).
    now cbn.
Qed.

Variable decoded : Claims.
Hypothesis verified : jwt_verify token secret = Normal decoded.

(** C3: a token that verifies but whose [userId] the store does not know is
    answered 404 "User not found", which is not the 401 of a verification
    failure; the downstream operation is not invoked and nothing is
    attached to the request. *)
Theorem unknown_subject_not_found :
  User_findById (userId decoded) = Normal None ->
  fst (gate allowedRoles req next h) = Normal tt
  /\ res_sent (snd (gate allowedRoles req next h))
     = (res_sent h ++ [plain 404 "User not found"])%list
  /\ res_sent (snd (gate allowedRoles req next h))
     <> (res_sent h ++ [plain 401 "Invalid or expired token"])%list
  /\ invoked (snd (gate allowedRoles req next h)) = invoked h
  /\ req_user (snd (gate allowedRoles req next h)) = req_user h.
Proof.
  intros Hf.
  rewrite (protect_not_found _ _ _ _ _ _ _ _ extracted _ verified Hf).
  cbn [fst snd res_sent req_user calls].
  repeat split; try reflexivity.
  - intros E. apply app_inv_head in E. discriminate E.
  - rewrite invoked_extend. apply app_nil_r.
Qed.

Variable user : User.
Hypothesis resolved : User_findById (userId decoded) = Normal (Some user).

(** C2 (as amended): with a valid token whose subject is in the store, a
    non-empty allowed-role list that does not contain the user's role is
    answered 403 with the message "Access forbidden: Insufficient
    privileges" (capital I), and the downstream operation is not invoked. *)
Theorem role_mismatch_forbidden :
  allowedRoles <> [] ->
  ~ In (userRole user) allowedRoles ->
  fst (gate allowedRoles req next h) = Normal tt
  /\ res_sent (snd (gate allowedRoles req next h))
     = (res_sent h
        ++ [plain 403 "Access forbidden: Insufficient privileges"])%list
  /\ invoked (snd (gate allowedRoles req next h)) = invoked h.
Proof.
  intros Hne Hn.
  assert (role_refused allowedRoles user = true) as Hr
    by (apply role_refused_iff; now split).
  rewrite (protect_forbidden _ _ _ _ _ _ _ _ extracted _ verified _ resolved Hr).
  cbn [fst snd res_sent req_user calls]. repeat split.
  rewrite invoked_extend. apply app_nil_r.
Qed.

(** C1 (as amended): when the role check refuses the request, the resolved
    user is already attached to the request ([req.user] is set as soon as
    the store lookup succeeds, before the role check); the downstream
    operation is not invoked. *)
Theorem identity_attached_before_role_check :
  allowedRoles <> [] ->
  ~ In (userRole user) allowedRoles ->
  req_user (snd (gate allowedRoles req next h)) = Some user
  /\ invoked (snd (gate allowedRoles req next h)) = invoked h.
Proof.
  intros Hne Hn.
  assert (role_refused allowedRoles user = true) as Hr
    by (apply role_refused_iff; now split).
  rewrite (protect_forbidden _ _ _ _ _ _ _ _ extracted _ verified _ resolved Hr).
  cbn [fst snd res_sent req_user calls]. split; [reflexivity|].
  rewrite invoked_extend. apply app_nil_r.
Qed.

End GateClaims.

Section Admission.

Variable secret : string.
Variable jwt_verify : string -> string -> Completion Claims.
Variable User_findById : string -> Completion (option User).

Local Abbreviation gate := (protect secret jwt_verify User_findById).

Variable req : Request.
Variable next : option User -> Completion unit.
Variable h : Handling.
Variable token : string.
Variable decoded : Claims.
Variable user : User.

(** C6: with an empty allowed-role list, a request whose token verifies and
    whose subject is in the store is admitted whatever the user's role:
    the downstream operation is invoked, once, with the resolved user
    attached to the request; when it returns, the gate has sent nothing. *)
Theorem empty_role_set_accepts :
  JS.truthy (bearer_token req) = Some token ->
  jwt_verify token secret = Normal decoded ->
  User_findById (userId decoded) = Normal (Some user) ->
  invoked (snd (gate [] req next h)) = (invoked h ++ [Some user])%list
  /\ req_user (snd (gate [] req next h)) = Some user
  /\ (next (Some user) = Normal tt ->
      fst (gate [] req next h) = Normal tt
      /\ res_sent (snd (gate [] req next h)) = res_sent h).
Proof.
  intros Htok Hv Hf.
  assert (role_refused [] user = false) as Hr by reflexivity.
  destruct (next (Some user)) as [[]|e] eqn:Hn.
  - rewrite (protect_proceeds _ _ _ _ _ _ _ _ Htok _ Hv _ Hf Hr Hn).
    cbn [fst snd res_sent req_user calls]. rewrite invoked_extend.
    repeat split.
  - rewrite (protect_next_throws _ _ _ _ _ _ _ _ Htok _ Hv _ Hf _ Hr Hn).
    cbn [fst snd res_sent req_user calls]. rewrite invoked_extend.
    repeat split. discriminate.
Qed.

End Admission.

(* ================================================================= *)
(** ** The token codec and the gate *)

Section CodecClaims.

Variable mac : string -> string -> string.
Variable cfg : TokenCodec.Config.
Variable now : Z.

(** C8: a token made by [generateAccessToken] for a user id and a role,
    verified with the access secret before it expires, gives back claims
    with that user id and that role, issued at the time of issuance and
    expiring [accessTTL] later. *)
Theorem access_token_roundtrip (t : Z) (uid rl : string) :
  (t < now + TokenCodec.accessTTL cfg)%Z ->
  TokenCodec.verify mac t
    (TokenCodec.generateAccessToken mac cfg now uid rl)
    (TokenCodec.access_secret cfg)
  = Normal (mkClaims uid (Some rl) now (now + TokenCodec.accessTTL cfg)).
Proof.
  intros Ht. unfold TokenCodec.generateAccessToken.
  apply verify_sign_same. cbn [expiresAt]. lia.
Qed.


End CodecClaims.

(* ================================================================= *)
(** ** The login route *)

Section LoginClaims.

Variable mac : string -> string -> string.
Variable cfg : TokenCodec.Config.
Variable now : Z.
Variable User_findOne : string -> Completion (option User).
Variable bcrypt_compare : string -> string -> Completion bool.

Local Abbreviation route := (login mac cfg now User_findOne bcrypt_compare).

Lemma login_unknown_email (req : Request) (h : Handling) (mail pw : string) :
  JS.truthy (body_email req) = Some mail ->
  JS.truthy (body_password req) = Some pw ->
  User_findOne mail = Normal None ->
  route req h
  = (Normal tt,
     mkHandling (req_user h)
       (res_sent h ++ [plain 400 "Invalid credentials."])
       (calls h ++ [FindOne mail])).
Proof.
  intros Hm Hp Hf. unfold login, try_catch, bind, call, send.
  now rewrite Hm, Hp, Hf.
Qed.

Lemma login_wrong_password (req : Request) (h : Handling) (mail pw : string)
    (user : User) :
  JS.truthy (body_email req) = Some mail ->
  JS.truthy (body_password req) = Some pw ->
  User_findOne mail = Normal (Some user) ->
  bcrypt_compare pw (password user) = Normal false ->
  route req h
  = (Normal tt,
     mkHandling (req_user h)
       (res_sent h ++ [plain 400 "Invalid credentials."])
       (calls h ++ [FindOne mail; BcryptCompare pw (password user)])).
Proof.
  intros Hm Hp Hf Hc. unfold login, try_catch, bind, call, send.
  rewrite Hm, Hp, Hf; cbn. rewrite Hc; cbn. now rewrite <- app_assoc.
Qed.

(** With string passwords: for two login requests that both carry an email
    and a password, one with an email the store does not know, the other
    with a known email and a password that [bcrypt.compare] finds not to
    match, the responses are the same: status 400, message "Invalid
    credentials.". *)
Theorem login_hides_registration (req1 req2 : Request) (h : Handling)
    (mail1 pw1 mail2 pw2 : string) (user : User) :
  JS.truthy (body_email req1) = Some mail1 ->
  JS.truthy (body_password req1) = Some pw1 ->
  JS.truthy (body_email req2) = Some mail2 ->
  JS.truthy (body_password req2) = Some pw2 ->
  User_findOne mail1 = Normal None ->
  User_findOne mail2 = Normal (Some user) ->
  bcrypt_compare pw2 (password user) = Normal false ->
  res_sent (snd (route req1 h))
  = (res_sent h ++ [plain 400 "Invalid credentials."])%list
  /\ res_sent (snd (route req2 h)) = res_sent (snd (route req1 h))
  /\ fst (route req1 h) = Normal tt
  /\ fst (route req2 h) = Normal tt.
Proof.
  intros Hm1 Hp1 Hm2 Hp2 Hf1 Hf2 Hc.
  rewrite (login_unknown_email _ h _ _ Hm1 Hp1 Hf1).
  rewrite (login_wrong_password _ h _ _ _ Hm2 Hp2 Hf2 Hc).
  now cbn.
Qed.

End LoginClaims.

(** ** The login route on any JSON password *)

(** On a password that is a string or absent, the route on JSON values
    answers as [login] does. *)
Lemma login_json_agrees mac cfg (now : Z) User_findOne bcrypt_compare
    (req : Request) :
  let out := login mac cfg now User_findOne bcrypt_compare req fresh in
  let out' :=
    LoginJson.login mac cfg now User_findOne
      (LoginJson.compare_any bcrypt_compare)
      (LoginJson.mkBody (body_email req)
         (option_map LoginJson.Str (body_password req)))
      LoginJson.start in
  fst out' = fst out /\ LoginJson.sent (snd out') = res_sent (snd out).
Proof.
  unfold login, LoginJson.login, try_catch, bind, call, send,
    LoginJson.try_catch, LoginJson.bind, LoginJson.call, LoginJson.send.
  cbn [LoginJson.b_email LoginJson.b_password].
  destruct (JS.truthy (body_email req)) as [mail|]; [|now split].
  destruct (body_password req) as [[|c pw]|]; cbn; try now split.
  destruct (User_findOne mail) as [[user|]|e]; cbn; try now split.
  destruct (bcrypt_compare (String c pw) (password user)) as [[|]|e]; cbn;
    now split.
Qed.

Section LoginJsonClaims.

Variable mac : string -> string -> string.
Variable cfg : TokenCodec.Config.
Variable now : Z.
Variable User_findOne : string -> Completion (option User).
Variable bcrypt_compare : LoginJson.Value -> string -> Completion bool.

Local Abbreviation route :=
  (LoginJson.login mac cfg now User_findOne bcrypt_compare).

Lemma login_json_unknown_email (body : LoginJson.Body)
    (p : LoginJson.Progress) (mail : string) (pw : LoginJson.Value) :
  JS.truthy (LoginJson.b_email body) = Some mail ->
  LoginJson.truthy (LoginJson.b_password body) = Some pw ->
  User_findOne mail = Normal None ->
  route body p
  = (Normal tt,
     LoginJson.mkProgress
       (LoginJson.sent p ++ [plain 400 "Invalid credentials."])
       (LoginJson.effects p ++ [LoginJson.LookupEmail mail])).
Proof.
  intros Hm Hp Hf.
  unfold LoginJson.login, LoginJson.try_catch, LoginJson.bind,
    LoginJson.call, LoginJson.send.
  now rewrite Hm, Hp, Hf.
Qed.

Lemma login_json_compare_throws (body : LoginJson.Body)
    (p : LoginJson.Progress) (mail : string) (pw : LoginJson.Value)
    (user : User) (e : Exn) :
  JS.truthy (LoginJson.b_email body) = Some mail ->
  LoginJson.truthy (LoginJson.b_password body) = Some pw ->
  User_findOne mail = Normal (Some user) ->
  bcrypt_compare pw (password user) = Throw e ->
  route body p
  = (Normal tt,
     LoginJson.mkProgress
       (LoginJson.sent p ++ [plain 500 (exn_message e)])
       (LoginJson.effects p
        ++ [LoginJson.LookupEmail mail;
            LoginJson.Compare pw (password user)])).
Proof.
  intros Hm Hp Hf Hc.
  unfold LoginJson.login, LoginJson.try_catch, LoginJson.bind,
    LoginJson.call, LoginJson.send.
  rewrite Hm, Hp, Hf; cbn. rewrite Hc; cbn. now rewrite <- app_assoc.
Qed.

(** C10: what the route does where the claim fails. Two login requests
    carry an email and the same password, on which [bcrypt.compare]
    throws (a password that is not a string); the request whose email the
    store does not know is answered 400 "Invalid credentials.", the one
    whose email is registered is answered 500 with the message of the
    error: the two responses differ. *)
Theorem login_reveals_registration_when_compare_throws
    (body1 body2 : LoginJson.Body) (p : LoginJson.Progress)
    (mail1 mail2 : string) (pw : LoginJson.Value) (user : User) (e : Exn) :
  JS.truthy (LoginJson.b_email body1) = Some mail1 ->
  JS.truthy (LoginJson.b_email body2) = Some mail2 ->
  LoginJson.truthy (LoginJson.b_password body1) = Some pw ->
  LoginJson.truthy (LoginJson.b_password body2) = Some pw ->
  User_findOne mail1 = Normal None ->
  User_findOne mail2 = Normal (Some user) ->
  bcrypt_compare pw (password user) = Throw e ->
  LoginJson.sent (snd (route body1 p))
  = (LoginJson.sent p ++ [plain 400 "Invalid credentials."])%list
  /\ LoginJson.sent (snd (route body2 p))
     = (LoginJson.sent p ++ [plain 500 (exn_message e)])%list
  /\ LoginJson.sent (snd (route body1 p))
     <> LoginJson.sent (snd (route body2 p)).
Proof.
  intros Hm1 Hm2 Hp1 Hp2 Hf1 Hf2 Hc.
  rewrite (login_json_unknown_email _ p _ _ Hm1 Hp1 Hf1).
  rewrite (login_json_compare_throws _ p _ _ _ _ Hm2 Hp2 Hf2 Hc).
  cbn [snd LoginJson.sent]. repeat split.
  intros E. apply app_inv_head in E. discriminate E.
Qed.

End LoginJsonClaims.

(* ================================================================= *)
(** ** The handlers run on concrete requests *)

Lemma demo_admin_only_excludes_user : ~ In "user" ["admin"].
Proof. intros [E|[]]. discriminate E. Defined.

Lemma demo_admin_only_not_empty : ["admin"] <> @nil string.
Proof. discriminate. Defined.

(** A header without a token. *)
Lemma protect_requires_token_witness :
  let out := Demo.gate 1000 Demo.users ["admin"]
               (mkRequest (Some "Bearer") None None) Demo.proceed in
  fst out = Normal tt
  /\ res_sent (snd out)
     = (res_sent fresh ++ [plain 401 "Authorization token required"])%list
  /\ calls (snd out) = calls fresh
  /\ req_user (snd out) = req_user fresh.
Proof.
  apply (protect_requires_token (TokenCodec.access_secret Demo.cfg)
           (TokenCodec.verify Demo.mac 1000) (Demo.findById Demo.users)
           ["admin"] (mkRequest (Some "Bearer") None None) Demo.proceed
           fresh).
  reflexivity.
Defined.

(** An expired token (issued at 1000 for 900 seconds, presented at 2000). *)
Lemma verification_failures_collapse_witness :
  res_sent (snd (Demo.gate 2000 Demo.users []
                   (Demo.bearer Demo.alice_token) Demo.proceed))
  = [plain 401 "Invalid or expired token"].
Proof.
  assert (JS.truthy (bearer_token (Demo.bearer Demo.alice_token))
          = Some Demo.alice_token) as Htok by (vm_compute; reflexivity).
  assert (TokenCodec.verify Demo.mac 2000 Demo.alice_token
            (TokenCodec.access_secret Demo.cfg)
          = Throw (JwtError TokenExpired)) as Hv by (vm_compute; reflexivity).
  exact (proj1 (proj2
    (verification_failures_collapse (TokenCodec.access_secret Demo.cfg)
       (TokenCodec.verify Demo.mac 2000) (Demo.findById Demo.users)
       [] (Demo.bearer Demo.alice_token) Demo.proceed fresh
       Demo.alice_token Htok TokenExpired Hv))).
Defined.

(** The store cannot be reached while a valid token is presented. *)
Lemma exceptions_in_try_answer_401_witness :
  let out := protect (TokenCodec.access_secret Demo.cfg)
               (TokenCodec.verify Demo.mac 1000) Demo.unreachable
               [] (Demo.bearer Demo.alice_token) Demo.proceed fresh in
  fst out = Normal tt
  /\ res_sent (snd out)
     = (res_sent fresh ++ [plain 401 "Invalid or expired token"])%list.
Proof.
  apply (exceptions_in_try_answer_401 (TokenCodec.access_secret Demo.cfg)
           (TokenCodec.verify Demo.mac 1000) Demo.unreachable
           [] (Demo.bearer Demo.alice_token) Demo.proceed fresh
           Demo.alice_token) with (e := Error "connection refused").
  - vm_compute. reflexivity.
  - apply raised_by_store with (decoded := Demo.alice_claims);
      vm_compute; reflexivity.
Defined.

(** A valid token for a user that is not in the store. *)
Lemma unknown_subject_not_found_witness :
  res_sent (snd (Demo.gate 1000 Demo.users []
                   (Demo.bearer Demo.ghost_token) Demo.proceed))
  = [plain 404 "User not found"].
Proof.
  assert (JS.truthy (bearer_token (Demo.bearer Demo.ghost_token))
          = Some Demo.ghost_token) as Htok by (vm_compute; reflexivity).
  assert (TokenCodec.verify Demo.mac 1000 Demo.ghost_token
            (TokenCodec.access_secret Demo.cfg)
          = Normal Demo.ghost_claims) as Hv by (vm_compute; reflexivity).
  assert (Demo.findById Demo.users (userId Demo.ghost_claims) = Normal None)
    as Hf by (vm_compute; reflexivity).
  exact (proj1 (proj2
    (unknown_subject_not_found (TokenCodec.access_secret Demo.cfg)
       (TokenCodec.verify Demo.mac 1000) (Demo.findById Demo.users)
       [] (Demo.bearer Demo.ghost_token) Demo.proceed fresh
       Demo.ghost_token Htok Demo.ghost_claims Hv Hf))).
Defined.

(** An admin-only route, a token of a user whose role is "user". *)
Lemma role_mismatch_forbidden_witness :
  let out := Demo.gate 1000 Demo.users ["admin"]
               (Demo.bearer Demo.alice_token) Demo.proceed in
  fst out = Normal tt
  /\ res_sent (snd out)
     = (res_sent fresh
        ++ [plain 403 "Access forbidden: Insufficient privileges"])%list
  /\ invoked (snd out) = invoked fresh.
Proof.
  apply (role_mismatch_forbidden (TokenCodec.access_secret Demo.cfg)
           (TokenCodec.verify Demo.mac 1000) (Demo.findById Demo.users)
           ["admin"] (Demo.bearer Demo.alice_token) Demo.proceed fresh
           Demo.alice_token) with (decoded := Demo.alice_claims)
                                 (user := Demo.alice).
  - vm_compute. reflexivity.
  - vm_compute. reflexivity.
  - vm_compute. reflexivity.
  - exact demo_admin_only_not_empty.
  - exact demo_admin_only_excludes_user.
Defined.

(** C2, counterexample: on that request the message sent is not the one
    with a lower-case "insufficient". *)
Lemma role_mismatch_message_counterexample :
  let req := Demo.bearer Demo.alice_token in
  JS.truthy (bearer_token req) = Some Demo.alice_token
  /\ TokenCodec.verify Demo.mac 1000 Demo.alice_token
       (TokenCodec.access_secret Demo.cfg) = Normal Demo.alice_claims
  /\ Demo.findById Demo.users (userId Demo.alice_claims)
     = Normal (Some Demo.alice)
  /\ ["admin"] <> []
  /\ ~ In (userRole Demo.alice) ["admin"]
  /\ res_sent (snd (Demo.gate 1000 Demo.users ["admin"] req Demo.proceed))
     <> [plain 403 "Access forbidden: insufficient privileges"].
Proof.
  repeat split; try (vm_compute; reflexivity).
  - discriminate.
  - exact demo_admin_only_excludes_user.
  - vm_compute. intros E. discriminate E.
Qed.

Lemma identity_attached_before_role_check_witness :
  let out := Demo.gate 1000 Demo.users ["admin"]
               (Demo.bearer Demo.alice_token) Demo.proceed in
  req_user (snd out) = Some Demo.alice
  /\ invoked (snd out) = invoked fresh.
Proof.
  apply (identity_attached_before_role_check
           (TokenCodec.access_secret Demo.cfg)
           (TokenCodec.verify Demo.mac 1000) (Demo.findById Demo.users)
           ["admin"] (Demo.bearer Demo.alice_token) Demo.proceed fresh
           Demo.alice_token) with (decoded := Demo.alice_claims)
                                 (user := Demo.alice).
  - vm_compute. reflexivity.
  - vm_compute. reflexivity.
  - vm_compute. reflexivity.
  - exact demo_admin_only_not_empty.
  - exact demo_admin_only_excludes_user.
Defined.

(** C1, counterexample: the request reaches the role check with a non-empty
    allowed-role list that does not contain the user's role, it is refused,
    and the user is attached to it all the same. *)
Lemma identity_not_attached_counterexample :
  let req := Demo.bearer Demo.alice_token in
  let out := Demo.gate 1000 Demo.users ["admin"] req Demo.proceed in
  JS.truthy (bearer_token req) = Some Demo.alice_token
  /\ TokenCodec.verify Demo.mac 1000 Demo.alice_token
       (TokenCodec.access_secret Demo.cfg) = Normal Demo.alice_claims
  /\ Demo.findById Demo.users (userId Demo.alice_claims)
     = Normal (Some Demo.alice)
  /\ ["admin"] <> []
  /\ ~ In (userRole Demo.alice) ["admin"]
  /\ invoked (snd out) = []
  /\ req_user fresh = None
  /\ req_user (snd out) = Some Demo.alice
  /\ req_user (snd out) <> None.
Proof.
  repeat split; try (vm_compute; reflexivity).
  - discriminate.
  - exact demo_admin_only_excludes_user.
  - vm_compute. discriminate.
Qed.

(** No role is required: the user with role "user" is admitted. *)
Lemma empty_role_set_accepts_witness :
  let out := Demo.gate 1000 Demo.users []
               (Demo.bearer Demo.alice_token) Demo.proceed in
  invoked (snd out) = (invoked fresh ++ [Some Demo.alice])%list
  /\ req_user (snd out) = Some Demo.alice
  /\ (Demo.proceed (Some Demo.alice) = Normal tt ->
      fst out = Normal tt /\ res_sent (snd out) = res_sent fresh).
Proof.
  apply (empty_role_set_accepts (TokenCodec.access_secret Demo.cfg)
           (TokenCodec.verify Demo.mac 1000) (Demo.findById Demo.users)
           (Demo.bearer Demo.alice_token) Demo.proceed fresh
           Demo.alice_token Demo.alice_claims Demo.alice);
    vm_compute; reflexivity.
Defined.

(** Issued at 1000 for 900 seconds, verified at 1500. *)
Lemma access_token_roundtrip_witness :
  TokenCodec.verify Demo.mac 1500 Demo.alice_token
    (TokenCodec.access_secret Demo.cfg)
  = Normal (mkClaims "u1" (Some "user") 1000 1900).
Proof.
  apply (access_token_roundtrip Demo.mac Demo.cfg 1000 1500 "u1" "user").
  vm_compute. reflexivity.
Defined.



(** An unknown email, and a known email with a wrong password. *)
Lemma login_hides_registration_witness :
  let route := login Demo.mac Demo.cfg 1000
                 (Demo.findOne Demo.users) Demo.compare in
  let unknown := Demo.credentials "nobody@example.org" "secret" in
  let wrong := Demo.credentials "alice@example.org" "secret" in
  res_sent (snd (route unknown fresh))
  = (res_sent fresh ++ [plain 400 "Invalid credentials."])%list
  /\ res_sent (snd (route wrong fresh)) = res_sent (snd (route unknown fresh))
  /\ fst (route unknown fresh) = Normal tt
  /\ fst (route wrong fresh) = Normal tt.
Proof.
  apply (login_hides_registration Demo.mac Demo.cfg 1000
           (Demo.findOne Demo.users) Demo.compare
           (Demo.credentials "nobody@example.org" "secret")
           (Demo.credentials "alice@example.org" "secret") fresh
           "nobody@example.org" "secret" "alice@example.org" "secret"
           Demo.alice);
    vm_compute; reflexivity.
Defined.

(* ================================================================= *)
(** * Further properties of the handlers *)

(** ** The gate as a whole *)

(** The gate reads the request through the extracted token only. *)
Lemma protect_reads_token_only secret jwt_verify User_findById allowedRoles
    (req req' : Request) next h :
  JS.truthy (bearer_token req) = JS.truthy (bearer_token req') ->
  protect secret jwt_verify User_findById allowedRoles req next h
  = protect secret jwt_verify User_findById allowedRoles req' next h.
Proof. intros E. unfold protect. now rewrite E. Qed.

(** The second piece of a header, whatever comes before the first space
    and after the second. *)
Lemma bearer_token_second_piece (scheme tok : string) e p :
  JS.occurs " " scheme = false -> JS.occurs " " tok = false ->
  bearer_token (mkRequest (Some (scheme ++ " " ++ tok)) e p) = Some tok.
Proof.
  intros Hs Ht. unfold bearer_token. cbn [authorization append].
  rewrite split_first by assumption. now rewrite split_whole.
Qed.

Lemma bearer_token_second_of_many (scheme tok rest : string) e p :
  JS.occurs " " scheme = false -> JS.occurs " " tok = false ->
  bearer_token (mkRequest (Some (scheme ++ " " ++ tok ++ " " ++ rest)) e p)
  = Some tok.
Proof.
  intros Hs Ht. unfold bearer_token. cbn [authorization append].
  rewrite split_first by assumption. now rewrite split_first.
Qed.

Lemma invoked_same (u : option User) (res : list Response) (h : Handling)
    (more : list Call) :
  invoked (mkHandling None [] more) = [] ->
  invoked (mkHandling u res (calls h ++ more)) = invoked h.
Proof. intros E. rewrite invoked_extend, E. apply app_nil_r. Qed.

Section GateAsAWhole.

Variable secret : string.
Variable jwt_verify : string -> string -> Completion Claims.
Variable User_findById : string -> Completion (option User).

Local Abbreviation gate := (protect secret jwt_verify User_findById).

Variable allowedRoles : list string.
Variable next : option User -> Completion unit.
Variable h : Handling.

(** Every run of the gate follows one of seven paths; [on_path] rewrites
    the run with the path taken and leaves one goal per path. *)
Ltac on_path req :=
  let token := fresh "token" in
  let decoded := fresh "decoded" in
  let user := fresh "user" in
  let e := fresh "e" in
  let Htok := fresh "Htok" in
  let Hv := fresh "Hv" in
  let Hf := fresh "Hf" in
  let Hr := fresh "Hr" in
  let Hn := fresh "Hn" in
  destruct (JS.truthy (bearer_token req)) as [token|] eqn:Htok;
  [ destruct (jwt_verify token secret) as [decoded|e] eqn:Hv;
    [ destruct (User_findById (userId decoded)) as [[user|]|e] eqn:Hf;
      [ destruct (role_refused allowedRoles user) eqn:Hr;
        [ rewrite (protect_forbidden _ _ _ allowedRoles req next h _ Htok
                     _ Hv _ Hf Hr)
        | destruct (next (Some user)) as [[]|e] eqn:Hn;
          [ rewrite (protect_proceeds _ _ _ allowedRoles req next h _ Htok
                       _ Hv _ Hf Hr Hn)
          | rewrite (protect_next_throws _ _ _ allowedRoles req next h _
                       Htok _ Hv _ Hf _ Hr Hn) ] ]
      | rewrite (protect_not_found _ _ _ allowedRoles req next h _ Htok
                   _ Hv Hf)
      | rewrite (protect_store_throws _ _ _ allowedRoles req next h _ Htok
                   _ Hv _ Hf) ]
    | rewrite (protect_verify_throws _ _ _ allowedRoles req next h _ Htok
                 _ Hv) ]
  | rewrite (protect_no_token _ _ _ allowedRoles req next h Htok) ];
  cbn [fst snd res_sent req_user calls].

(** X1: the downstream operation is invoked only for a request whose token
    verified, whose [userId] the store knows, and whose stored role passes
    the role check; it is invoked once, with that stored user attached. *)
Theorem downstream_only_when_authorized (req : Request) :
  invoked (snd (gate allowedRoles req next h)) <> invoked h ->
  exists token decoded user,
    JS.truthy (bearer_token req) = Some token
    /\ jwt_verify token secret = Normal decoded
    /\ User_findById (userId decoded) = Normal (Some user)
    /\ (allowedRoles = [] \/ In (userRole user) allowedRoles)
    /\ invoked (snd (gate allowedRoles req next h))
       = (invoked h ++ [Some user])%list.
Proof.
  on_path req; intros Hi;
    try (exfalso; apply Hi; first [reflexivity | now apply invoked_same]);
    exists token, decoded, user; rewrite invoked_extend;
    repeat split; try assumption; now apply role_accepted_iff.
Qed.

(** X2: with a non-empty allowed-role list that contains the stored role
    of the user, a request whose token verifies and whose subject is in
    the store is handed to the downstream operation, once, with the user
    attached; when that operation returns, the gate has sent nothing. *)
Theorem listed_role_passes (req : Request) (token : string)
    (decoded : Claims) (user : User) :
  JS.truthy (bearer_token req) = Some token ->
  jwt_verify token secret = Normal decoded ->
  User_findById (userId decoded) = Normal (Some user) ->
  In (userRole user) allowedRoles ->
  invoked (snd (gate allowedRoles req next h))
  = (invoked h ++ [Some user])%list
  /\ req_user (snd (gate allowedRoles req next h)) = Some user
  /\ (next (Some user) = Normal tt ->
      gate allowedRoles req next h
      = (Normal tt,
         mkHandling (Some user) (res_sent h)
           (calls h ++ [JwtVerify token secret; FindById (userId decoded);
                        Next (Some user)]))).
Proof.
  intros Htok Hv Hf Hin.
  assert (role_refused allowedRoles user = false) as Hr
    by (apply role_accepted_iff; now right).
  destruct (next (Some user)) as [[]|e] eqn:Hn.
  - rewrite (protect_proceeds _ _ _ _ _ _ _ _ Htok _ Hv _ Hf Hr Hn).
    cbn [fst snd res_sent req_user calls]. rewrite invoked_extend.
    repeat split.
  - rewrite (protect_next_throws _ _ _ _ _ _ _ _ Htok _ Hv _ Hf _ Hr Hn).
    cbn [fst snd res_sent req_user calls]. rewrite invoked_extend.
    repeat split. discriminate.
Qed.

(** X3: [req.user] is written only when the store lookup has found the
    user of a verified token, and then it holds that user. *)
Theorem req_user_written_only_on_lookup (req : Request) :
  req_user (snd (gate allowedRoles req next h)) <> req_user h ->
  exists token decoded user,
    JS.truthy (bearer_token req) = Some token
    /\ jwt_verify token secret = Normal decoded
    /\ User_findById (userId decoded) = Normal (Some user)
    /\ req_user (snd (gate allowedRoles req next h)) = Some user.
Proof.
  on_path req; intros Hu; try (exfalso; now apply Hu);
    exists token, decoded, user; repeat split; assumption.
Qed.

(** X4: the gate always completes, and either hands the request over
    without sending anything (the downstream operation was invoked and
    returned), or sends exactly one response, whose status is 401, 403 or
    404 and whose body has a message only. *)
Theorem gate_answers_once_or_hands_over (req : Request) :
  fst (gate allowedRoles req next h) = Normal tt
  /\ ((res_sent (snd (gate allowedRoles req next h)) = res_sent h
       /\ exists user,
            invoked (snd (gate allowedRoles req next h))
            = (invoked h ++ [Some user])%list
            /\ next (Some user) = Normal tt)
      \/ (exists st msg,
            res_sent (snd (gate allowedRoles req next h))
            = (res_sent h ++ [plain st msg])%list
            /\ In st [401; 403; 404]%Z)).
Proof.
  on_path req; (split; [reflexivity|]);
    try (right; eexists; eexists; split; [reflexivity|];
         cbn; intuition congruence).
  left. split; [reflexivity|]. exists user.
  rewrite invoked_extend. now split.
Qed.

(** X5: the role carried by the token is never read: two requests whose
    tokens verify to claims with the same [userId] get the same response,
    the same [req.user] and the same hand-over, whatever the other claims
    are. The role that counts is the one in the store. *)
Theorem token_role_is_ignored (req1 req2 : Request) (token1 token2 : string)
    (decoded1 decoded2 : Claims) :
  JS.truthy (bearer_token req1) = Some token1 ->
  JS.truthy (bearer_token req2) = Some token2 ->
  jwt_verify token1 secret = Normal decoded1 ->
  jwt_verify token2 secret = Normal decoded2 ->
  userId decoded1 = userId decoded2 ->
  fst (gate allowedRoles req1 next h) = fst (gate allowedRoles req2 next h)
  /\ res_sent (snd (gate allowedRoles req1 next h))
     = res_sent (snd (gate allowedRoles req2 next h))
  /\ req_user (snd (gate allowedRoles req1 next h))
     = req_user (snd (gate allowedRoles req2 next h))
  /\ invoked (snd (gate allowedRoles req1 next h))
     = invoked (snd (gate allowedRoles req2 next h)).
Proof.
  intros Ht1 Ht2 Hv1 Hv2 Hid.
  destruct (User_findById (userId decoded1)) as [[user|]|e] eqn:Hf1;
    pose proof Hf1 as Hf2; rewrite Hid in Hf2.
  - destruct (role_refused allowedRoles user) eqn:Hr.
    + rewrite (protect_forbidden _ _ _ _ _ _ _ _ Ht1 _ Hv1 _ Hf1 Hr).
      rewrite (protect_forbidden _ _ _ _ _ _ _ _ Ht2 _ Hv2 _ Hf2 Hr).
      cbn [fst snd res_sent req_user]. rewrite !invoked_extend.
      repeat split.
    + destruct (next (Some user)) as [[]|e] eqn:Hn.
      * rewrite (protect_proceeds _ _ _ _ _ _ _ _ Ht1 _ Hv1 _ Hf1 Hr Hn).
        rewrite (protect_proceeds _ _ _ _ _ _ _ _ Ht2 _ Hv2 _ Hf2 Hr Hn).
        cbn [fst snd res_sent req_user]. rewrite !invoked_extend.
        repeat split.
      * rewrite (protect_next_throws _ _ _ _ _ _ _ _ Ht1 _ Hv1 _ Hf1 _ Hr Hn).
        rewrite (protect_next_throws _ _ _ _ _ _ _ _ Ht2 _ Hv2 _ Hf2 _ Hr Hn).
        cbn [fst snd res_sent req_user]. rewrite !invoked_extend.
        repeat split.
  - rewrite (protect_not_found _ _ _ _ _ _ _ _ Ht1 _ Hv1 Hf1).
    rewrite (protect_not_found _ _ _ _ _ _ _ _ Ht2 _ Hv2 Hf2).
    cbn [fst snd res_sent req_user]. rewrite !invoked_extend.
    repeat split.
  - rewrite (protect_store_throws _ _ _ _ _ _ _ _ Ht1 _ Hv1 _ Hf1).
    rewrite (protect_store_throws _ _ _ _ _ _ _ _ Ht2 _ Hv2 _ Hf2).
    cbn [fst snd res_sent req_user]. rewrite !invoked_extend.
    repeat split.
Qed.

(** X6: the word before the token is not checked and what follows the
    token is dropped: a header made of any word without a space, a space
    and the token, with or without further text after another space, is
    handled exactly like ["Bearer "] followed by the token. *)
Theorem scheme_word_not_checked (scheme tok rest : string) e p e' p' :
  JS.occurs " " scheme = false ->
  JS.occurs " " tok = false ->
  gate allowedRoles (mkRequest (Some (scheme ++ " " ++ tok)) e p) next h
  = gate allowedRoles (mkRequest (Some ("Bearer " ++ tok)) e' p') next h
  /\ gate allowedRoles
       (mkRequest (Some (scheme ++ " " ++ tok ++ " " ++ rest)) e p) next h
     = gate allowedRoles (mkRequest (Some ("Bearer " ++ tok)) e' p') next h.
Proof.
  intros Hs Ht.
  assert (bearer_token (mkRequest (Some ("Bearer " ++ tok)) e' p')
          = Some tok) as Hb
    by (apply (bearer_token_second_piece "Bearer"); [reflexivity | exact Ht]).
  split; apply protect_reads_token_only; rewrite Hb.
  - now rewrite bearer_token_second_piece.
  - now rewrite bearer_token_second_of_many.
Qed.

(** X7: two spaces after the first word leave the gate without a token,
    whatever follows: the request is answered 401 "Authorization token
    required" and nothing is verified or looked up. *)
Theorem double_space_loses_token (scheme rest : string) e p :
  JS.occurs " " scheme = false ->
  gate allowedRoles (mkRequest (Some (scheme ++ "  " ++ rest)) e p) next h
  = (Normal tt,
     mkHandling (req_user h)
       (res_sent h ++ [plain 401 "Authorization token required"])
       (calls h)).
Proof.
  intros Hs. apply protect_no_token.
  change (scheme ++ "  " ++ rest) with (scheme ++ " " ++ "" ++ " " ++ rest).
  now rewrite bearer_token_second_of_many.
Qed.

(** X8: a 404 or a 403 is sent only to the bearer of a token that
    verified: 404 when the store has no user under the token's [userId],
    403 when it has one and the non-empty allowed-role list does not
    contain that user's role. A request without a valid token never
    learns whether a user exists. *)
Theorem refusal_status_tells_the_path (req : Request) (st : Z)
    (msg : string) :
  res_sent (snd (gate allowedRoles req next h))
  = (res_sent h ++ [plain st msg])%list ->
  (st = 404%Z ->
   exists token decoded,
     JS.truthy (bearer_token req) = Some token
     /\ jwt_verify token secret = Normal decoded
     /\ User_findById (userId decoded) = Normal None)
  /\ (st = 403%Z ->
      exists token decoded user,
        JS.truthy (bearer_token req) = Some token
        /\ jwt_verify token secret = Normal decoded
        /\ User_findById (userId decoded) = Normal (Some user)
        /\ allowedRoles <> []
        /\ ~ In (userRole user) allowedRoles).
Proof.
  on_path req; intros E;
    first [ apply app_inv_head in E
          | rewrite <- (app_nil_r (res_sent h)) in E at 1;
            apply app_inv_head in E ];
    try discriminate E;
    injection E as <- <-; split; intros Hst; try discriminate Hst.
  - apply role_refused_iff in Hr as [Hne Hn].
    exists token, decoded, user. repeat split; assumption.
  - exists token, decoded. repeat split; assumption.
Qed.

End GateAsAWhole.

(** ** The login route as a whole *)

Section LoginAsAWhole.

Variable mac : string -> string -> string.
Variable cfg : TokenCodec.Config.
Variable now : Z.
Variable User_findOne : string -> Completion (option User).
Variable bcrypt_compare : string -> string -> Completion bool.

Local Abbreviation route := (login mac cfg now User_findOne bcrypt_compare).

Variable req : Request.
Variable h : Handling.

Lemma login_no_email :
  JS.truthy (body_email req) = None ->
  route req h
  = (Normal tt,
     mkHandling (req_user h) (res_sent h ++ [plain 400 "Email is required."])
       (calls h)).
Proof.
  intros Hm. unfold login, try_catch, bind, call, send. now rewrite Hm.
Qed.

Variable mail : string.
Hypothesis has_email : JS.truthy (body_email req) = Some mail.

Lemma login_no_password :
  JS.truthy (body_password req) = None ->
  route req h
  = (Normal tt,
     mkHandling (req_user h)
       (res_sent h ++ [plain 400 "Password is required."]) (calls h)).
Proof.
  intros Hp. unfold login, try_catch, bind, call, send.
  now rewrite has_email, Hp.
Qed.

Variable pw : string.
Hypothesis has_password : JS.truthy (body_password req) = Some pw.

Lemma login_lookup_throws e :
  User_findOne mail = Throw e ->
  route req h
  = (Normal tt,
     mkHandling (req_user h) (res_sent h ++ [plain 500 (exn_message e)])
       (calls h ++ [FindOne mail])).
Proof.
  intros Hf. unfold login, try_catch, bind, call, send.
  now rewrite has_email, has_password, Hf.
Qed.

Variable user : User.
Hypothesis found : User_findOne mail = Normal (Some user).

Lemma login_compare_throws e :
  bcrypt_compare pw (password user) = Throw e ->
  route req h
  = (Normal tt,
     mkHandling (req_user h) (res_sent h ++ [plain 500 (exn_message e)])
       (calls h ++ [FindOne mail; BcryptCompare pw (password user)])).
Proof.
  intros Hc. unfold login, try_catch, bind, call, send.
  rewrite has_email, has_password, found; cbn. rewrite Hc; cbn.
  now rewrite <- app_assoc.
Qed.

Lemma login_success :
  bcrypt_compare pw (password user) = Normal true ->
  route req h
  = (Normal tt,
     mkHandling (req_user h)
       (res_sent h
        ++ [mkResponse 200 "Login successful."
              (Some (TokenCodec.generateAccessToken mac cfg now
                       (_id user) (userRole user)))
              (Some (profile_of user))])
       (calls h ++ [FindOne mail; BcryptCompare pw (password user)])).
Proof.
  intros Hc. unfold login, try_catch, bind, call, send.
  rewrite has_email, has_password, found; cbn. rewrite Hc; cbn.
  now rewrite <- app_assoc.
Qed.

End LoginAsAWhole.

Section LoginProperties.

Variable mac : string -> string -> string.
Variable cfg : TokenCodec.Config.
Variable now : Z.
Variable User_findOne : string -> Completion (option User).
Variable bcrypt_compare : string -> string -> Completion bool.

Local Abbreviation route := (login mac cfg now User_findOne bcrypt_compare).

Variable req : Request.
Variable h : Handling.

(** One goal per path of the login route, the run rewritten with the path
    taken. *)
Ltac on_login_path :=
  let mail := fresh "mail" in
  let pw := fresh "pw" in
  let user := fresh "user" in
  let e := fresh "e" in
  let Hm := fresh "Hm" in
  let Hp := fresh "Hp" in
  let Hf := fresh "Hf" in
  let Hc := fresh "Hc" in
  destruct (JS.truthy (body_email req)) as [mail|] eqn:Hm;
  [ destruct (JS.truthy (body_password req)) as [pw|] eqn:Hp;
    [ destruct (User_findOne mail) as [[user|]|e] eqn:Hf;
      [ destruct (bcrypt_compare pw (password user)) as [[|]|e] eqn:Hc;
        [ rewrite (login_success mac cfg now _ _ req h _ Hm _ Hp _ Hf Hc)
        | rewrite (login_wrong_password mac cfg now _ _ req h _ _ _
                     Hm Hp Hf Hc)
        | rewrite (login_compare_throws mac cfg now _ _ req h _ Hm _ Hp
                     _ Hf _ Hc) ]
      | rewrite (login_unknown_email mac cfg now _ _ req h _ _ Hm Hp Hf)
      | rewrite (login_lookup_throws mac cfg now _ _ req h _ Hm _ Hp _ Hf) ]
    | rewrite (login_no_password mac cfg now _ _ req h _ Hm Hp) ]
  | rewrite (login_no_email mac cfg now _ _ req h Hm) ];
  cbn [fst snd res_sent req_user calls].

(** X9: a login request without an email or without a password (absent or
    empty) is answered 400 with "Email is required." or "Password is
    required." and neither the store nor bcrypt is called. *)
Theorem login_requires_both_fields :
  JS.truthy (body_email req) = None
  \/ JS.truthy (body_password req) = None ->
  exists msg,
    route req h
    = (Normal tt,
       mkHandling (req_user h) (res_sent h ++ [plain 400 msg]) (calls h))
    /\ In msg ["Email is required."; "Password is required."].
Proof.
  intros Hmissing.
  destruct (JS.truthy (body_email req)) as [mail|] eqn:Hm.
  - destruct Hmissing as [Hx|Hp]; [discriminate Hx|].
    exists "Password is required.". split.
    + now apply login_no_password with (mail := mail).
    + right; now left.
  - exists "Email is required.". split.
    + now apply login_no_email.
    + now left.
Qed.

(** X10: a 200 response is sent only when the store has a user for the
    email and [bcrypt.compare] of the password with the stored hash
    resolved to true; its body carries the access token made for the id
    and role of that user and the seven profile fields of that user. *)
Theorem login_succeeds_only_on_match (r : Response) :
  res_sent (snd (route req h)) = (res_sent h ++ [r])%list ->
  status r = 200%Z ->
  exists mail pw user,
    JS.truthy (body_email req) = Some mail
    /\ JS.truthy (body_password req) = Some pw
    /\ User_findOne mail = Normal (Some user)
    /\ bcrypt_compare pw (password user) = Normal true
    /\ r = mkResponse 200 "Login successful."
             (Some (TokenCodec.generateAccessToken mac cfg now
                      (_id user) (userRole user)))
             (Some (profile_of user)).
Proof.
  on_login_path; intros E Hst; apply app_inv_head in E;
    injection E as <-; try discriminate Hst.
  exists mail, pw, user. repeat split; assumption.
Qed.

(** X11: the login route always completes and sends exactly one response,
    with status 200, 400 or 500; req.user is not touched. *)
Theorem login_answers_once :
  fst (route req h) = Normal tt
  /\ req_user (snd (route req h)) = req_user h
  /\ exists r,
       res_sent (snd (route req h)) = (res_sent h ++ [r])%list
       /\ In (status r) [200; 400; 500]%Z.
Proof.
  on_login_path; (split; [reflexivity|]); (split; [reflexivity|]);
    eexists; (split; [reflexivity|]); cbn; intuition congruence.
Qed.

(** X12: when the store lookup or [bcrypt.compare] throws, the route
    answers 500 with the message of the error as the body message. *)
Theorem login_failure_reports_message (mail pw : string) (e : Exn) :
  JS.truthy (body_email req) = Some mail ->
  JS.truthy (body_password req) = Some pw ->
  User_findOne mail = Throw e
  \/ (exists user,
        User_findOne mail = Normal (Some user)
        /\ bcrypt_compare pw (password user) = Throw e) ->
  fst (route req h) = Normal tt
  /\ res_sent (snd (route req h))
     = (res_sent h ++ [plain 500 (exn_message e)])%list.
Proof.
  intros Hm Hp [Hf | (user & Hf & Hc)].
  - now rewrite (login_lookup_throws mac cfg now _ _ req h _ Hm _ Hp _ Hf).
  - now rewrite
      (login_compare_throws mac cfg now _ _ req h _ Hm _ Hp _ Hf _ Hc).
Qed.

(** X13: [bcrypt.compare] is called only when the store has a user for
    the email, and then once, with the password of the request and the
    stored hash of that user; for an unknown email, or when the lookup
    fails, no comparison is made. *)
Theorem login_compares_only_for_known_email (cs : list Call)
    (pw hash : string) :
  calls (snd (route req h)) = (calls h ++ cs)%list ->
  In (BcryptCompare pw hash) cs ->
  exists mail user,
    JS.truthy (body_email req) = Some mail
    /\ JS.truthy (body_password req) = Some pw
    /\ User_findOne mail = Normal (Some user)
    /\ hash = password user
    /\ cs = [FindOne mail; BcryptCompare pw hash].
Proof.
  on_login_path; intros E;
    first [ apply app_inv_head in E
          | rewrite <- (app_nil_r (calls h)) in E at 1;
            apply app_inv_head in E ];
    subst cs; cbn [In]; intros Hin;
    repeat (destruct Hin as [Hin|Hin]; [try discriminate Hin|]);
    try contradiction;
    injection Hin as <- <-; exists mail, user; repeat split; assumption.
Qed.

End LoginProperties.

(** X14: login and gate together. The access token of a successful login,
    sent in a [Bearer] header no later than [accessTTL] seconds after the
    login, is verified by the gate under the access secret; if the store
    still has a user under the id of the login and that user's role passes
    the role check, the downstream operation is invoked with that user
    attached. The token codec is the one modelled from the spec. *)
Theorem login_token_opens_gate mac cfg (now t : Z)
    User_findOne bcrypt_compare User_findById
    (req : Request) (h h' : Handling) (mail pw : string) (user stored : User)
    (allowedRoles : list string) (next : option User -> Completion unit)
    e p :
  JS.truthy (body_email req) = Some mail ->
  JS.truthy (body_password req) = Some pw ->
  User_findOne mail = Normal (Some user) ->
  bcrypt_compare pw (password user) = Normal true ->
  (t <= now + TokenCodec.accessTTL cfg)%Z ->
  User_findById (_id user) = Normal (Some stored) ->
  allowedRoles = [] \/ In (userRole stored) allowedRoles ->
  exists token profile,
    res_sent (snd (login mac cfg now User_findOne bcrypt_compare req h))
    = (res_sent h
       ++ [mkResponse 200 "Login successful." (Some token) profile])%list
    /\ invoked
         (snd (protect (TokenCodec.access_secret cfg)
                 (TokenCodec.verify mac t) User_findById allowedRoles
                 (mkRequest (Some ("Bearer " ++ token)) e p) next h'))
       = (invoked h' ++ [Some stored])%list.
Proof.
  intros Hm Hp Hf Hc Ht Hs Hroles.
  eexists; eexists. split.
  - rewrite (login_success mac cfg now _ _ req h _ Hm _ Hp _ Hf Hc).
    reflexivity.
  - destruct (issued_token_is_presentable mac cfg now t (_id user)
                (userRole user) e p Ht) as [Htok Hv].
    assert (role_refused allowedRoles stored = false) as Hr
      by now apply role_accepted_iff.
    destruct (next (Some stored)) as [[]|x] eqn:Hn.
    + rewrite (protect_proceeds _ _ _ _ _ _ _ _ Htok _ Hv _ Hs Hr Hn).
      cbn [snd]. now rewrite invoked_extend.
    + rewrite (protect_next_throws _ _ _ _ _ _ _ _ Htok _ Hv _ Hs _ Hr Hn).
      cbn [snd]. now rewrite invoked_extend.
Qed.

(** ** The signup route *)

(** A body either fails one of the seven checks or passes them all. *)
Lemma signup_refused_or_accepted (body : Signup.Body) :
  Signup.refused body
  \/ exists firstName lastName email phone password gender,
       Signup.accepted body firstName lastName email phone password gender.
Proof.
  unfold Signup.refused, Signup.accepted.
  destruct (JS.truthy (Signup.b_firstName body)) as [fn|]; [|tauto].
  destruct (JS.truthy (Signup.b_lastName body)) as [ln|]; [|tauto].
  destruct (JS.truthy (Signup.b_email body)) as [em|]; [|tauto].
  destruct (JS.truthy (Signup.b_phone body)) as [ph|]; [|tauto].
  destruct (JS.truthy (Signup.b_password body)) as [pw|]; [|tauto].
  destruct (Signup.listed_gender (Signup.b_gender body)) as [g|]; [|tauto].
  destruct (Signup.b_terms body) as [[|]|].
  - right. exists fn, ln, em, ph, pw, g. tauto.
  - left. repeat right. discriminate.
  - left. repeat right. discriminate.
Qed.

(** The two spellings the route accepts. *)
Lemma listed_gender_iff (gender : option string) (g : string) :
  Signup.listed_gender gender = Some g
  <-> gender = Some g /\ (g = "Male" \/ g = "Female").
Proof.
  unfold Signup.listed_gender, JS.includes. destruct gender as [x|].
  - cbn [existsb]. rewrite orb_false_r. split.
    + destruct (String.eqb_spec x "Male") as [->|_];
        [intros [= <-]; tauto|].
      destruct (String.eqb_spec x "Female") as [->|_];
        [intros [= <-]; tauto | discriminate].
    + intros [[= ->] [-> | ->]]; reflexivity.
  - split; [discriminate | intros [E _]; discriminate E].
Qed.

Section SignupPaths.

Variable User_findOne : string -> Completion (option User).
Variable generateUsername : string -> Completion string.
Variable fetchAvatar : string -> Completion string.
Variable bcrypt_hash : string -> Z -> Completion string.
Variable save : Signup.Document -> Completion unit.

Local Abbreviation route :=
  (Signup.signup User_findOne generateUsername fetchAvatar bcrypt_hash save).

Variable body : Signup.Body.
Variable p : Signup.Progress.

Ltac run_signup :=
  unfold Signup.signup, Signup.try_catch, Signup.bind, Signup.call,
    Signup.send.

Lemma signup_refused :
  Signup.refused body ->
  exists msg,
    route body p
    = (Normal tt,
       Signup.mkProgress (Signup.sent p ++ [plain 400 msg])
                         (Signup.effects p)).
Proof.
  unfold Signup.refused. run_signup.
  destruct (JS.truthy (Signup.b_firstName body)); [|now eexists].
  destruct (JS.truthy (Signup.b_lastName body)); [|now eexists].
  destruct (JS.truthy (Signup.b_email body)); [|now eexists].
  destruct (JS.truthy (Signup.b_phone body)); [|now eexists].
  destruct (JS.truthy (Signup.b_password body)); [|now eexists].
  destruct (Signup.listed_gender (Signup.b_gender body)); [|now eexists].
  destruct (Signup.b_terms body) as [[|]|]; [|now eexists|now eexists].
  intros H. exfalso. intuition congruence.
Qed.

Variables firstName lastName email phone password gender : string.
Hypothesis passes :
  Signup.accepted body firstName lastName email phone password gender.

Ltac past_checks :=
  destruct passes as (Hfn & Hln & Hem & Hph & Hpw & Hg & Ht);
  run_signup; rewrite Hfn, Hln, Hem, Hph, Hpw, Hg, Ht.

Lemma signup_lookup_throws e :
  User_findOne email = Throw e ->
  route body p
  = (Normal tt,
     Signup.mkProgress (Signup.sent p ++ [plain 500 (exn_message e)])
       (Signup.effects p ++ [Signup.LookupEmail email])).
Proof. intros Hf. past_checks. now rewrite Hf. Qed.

Lemma signup_taken (existing : User) :
  User_findOne email = Normal (Some existing) ->
  route body p
  = (Normal tt,
     Signup.mkProgress
       (Signup.sent p ++ [plain 400 "Email is already registered."])
       (Signup.effects p ++ [Signup.LookupEmail email])).
Proof. intros Hf. past_checks. now rewrite Hf. Qed.

Hypothesis free : User_findOne email = Normal None.

Lemma signup_username_throws e :
  generateUsername email = Throw e ->
  route body p
  = (Normal tt,
     Signup.mkProgress (Signup.sent p ++ [plain 500 (exn_message e)])
       (Signup.effects p
        ++ [Signup.LookupEmail email; Signup.GenerateUsername email])).
Proof.
  intros Hu. past_checks. rewrite free; cbn. rewrite Hu; cbn.
  now rewrite <- !app_assoc.
Qed.

Variable username : string.
Hypothesis named : generateUsername email = Normal username.

Lemma signup_avatar_throws e :
  fetchAvatar gender = Throw e ->
  route body p
  = (Normal tt,
     Signup.mkProgress (Signup.sent p ++ [plain 500 (exn_message e)])
       (Signup.effects p
        ++ [Signup.LookupEmail email; Signup.GenerateUsername email;
            Signup.FetchAvatar gender])).
Proof.
  intros Ha. past_checks. rewrite free; cbn. rewrite named; cbn.
  rewrite Ha; cbn. now rewrite <- !app_assoc.
Qed.

Variable avatar : string.
Hypothesis pictured : fetchAvatar gender = Normal avatar.

Lemma signup_hash_throws e :
  bcrypt_hash password 10 = Throw e ->
  route body p
  = (Normal tt,
     Signup.mkProgress (Signup.sent p ++ [plain 500 (exn_message e)])
       (Signup.effects p
        ++ [Signup.LookupEmail email; Signup.GenerateUsername email;
            Signup.FetchAvatar gender; Signup.BcryptHash password 10])).
Proof.
  intros Hh. past_checks. rewrite free; cbn. rewrite named; cbn.
  rewrite pictured; cbn. rewrite Hh; cbn. now rewrite <- !app_assoc.
Qed.

Variable hashedPassword : string.
Hypothesis hashed : bcrypt_hash password 10 = Normal hashedPassword.

Local Abbreviation newUser :=
  (Signup.mkDocument firstName lastName email phone hashedPassword gender
                     true username avatar "user").

Lemma signup_save_throws e :
  save newUser = Throw e ->
  route body p
  = (Normal tt,
     Signup.mkProgress (Signup.sent p ++ [plain 500 (exn_message e)])
       (Signup.effects p
        ++ [Signup.LookupEmail email; Signup.GenerateUsername email;
            Signup.FetchAvatar gender; Signup.BcryptHash password 10;
            Signup.Save newUser])).
Proof.
  intros Hs. past_checks. rewrite free; cbn. rewrite named; cbn.
  rewrite pictured; cbn. rewrite hashed; cbn. rewrite Hs; cbn.
  now rewrite <- !app_assoc.
Qed.

Lemma signup_created :
  save newUser = Normal tt ->
  route body p
  = (Normal tt,
     Signup.mkProgress
       (Signup.sent p
        ++ [plain 201 "User successfully created. You can now log in."])
       (Signup.effects p
        ++ [Signup.LookupEmail email; Signup.GenerateUsername email;
            Signup.FetchAvatar gender; Signup.BcryptHash password 10;
            Signup.Save newUser])).
Proof.
  intros Hs. past_checks. rewrite free; cbn. rewrite named; cbn.
  rewrite pictured; cbn. rewrite hashed; cbn. rewrite Hs; cbn.
  now rewrite <- !app_assoc.
Qed.

End SignupPaths.

Section SignupProperties.

Variable User_findOne : string -> Completion (option User).
Variable generateUsername : string -> Completion string.
Variable fetchAvatar : string -> Completion string.
Variable bcrypt_hash : string -> Z -> Completion string.
Variable save : Signup.Document -> Completion unit.

Local Abbreviation route :=
  (Signup.signup User_findOne generateUsername fetchAvatar bcrypt_hash save).

Variable body : Signup.Body.
Variable p : Signup.Progress.

(** X15: a signup request that fails one of the seven checks (a missing or
    empty first name, last name, email, phone or password, a gender that
    is not listed, terms not accepted) is answered 400 with the message of
    a check, and no collaborator is called: the store is not read, nothing
    is hashed, nothing is saved. *)
Theorem signup_rejects_before_any_call :
  Signup.refused body ->
  exists msg,
    route body p
    = (Normal tt,
       Signup.mkProgress (Signup.sent p ++ [plain 400 msg])
                         (Signup.effects p))
    /\ In msg ["First Name is required."; "Last Name is required.";
               "Email is required."; "Phone number is required.";
               "Password is required."; "Invalid gender.";
               "Terms must be accepted."].
Proof.
  unfold Signup.refused, Signup.signup, Signup.try_catch, Signup.bind,
    Signup.call, Signup.send.
  destruct (JS.truthy (Signup.b_firstName body));
    [|eexists; split; [reflexivity | cbn; tauto]].
  destruct (JS.truthy (Signup.b_lastName body));
    [|eexists; split; [reflexivity | cbn; tauto]].
  destruct (JS.truthy (Signup.b_email body));
    [|eexists; split; [reflexivity | cbn; tauto]].
  destruct (JS.truthy (Signup.b_phone body));
    [|eexists; split; [reflexivity | cbn; tauto]].
  destruct (JS.truthy (Signup.b_password body));
    [|eexists; split; [reflexivity | cbn; tauto]].
  destruct (Signup.listed_gender (Signup.b_gender body));
    [|eexists; split; [reflexivity | cbn; tauto]].
  destruct (Signup.b_terms body) as [[|]|];
    [|eexists; split; [reflexivity | cbn; tauto]
     |eexists; split; [reflexivity | cbn; tauto]].
  intros H. exfalso. intuition congruence.
Qed.

(** X16: the gender must be exactly "Male" or "Female": with the five text
    fields present, any other gender (another spelling, another case, or
    none) is answered 400 "Invalid gender." without any collaborator being
    called, whether or not the terms are accepted. *)
Theorem signup_gender_must_be_listed (fn ln em ph pw : string) :
  JS.truthy (Signup.b_firstName body) = Some fn ->
  JS.truthy (Signup.b_lastName body) = Some ln ->
  JS.truthy (Signup.b_email body) = Some em ->
  JS.truthy (Signup.b_phone body) = Some ph ->
  JS.truthy (Signup.b_password body) = Some pw ->
  Signup.b_gender body <> Some "Male" ->
  Signup.b_gender body <> Some "Female" ->
  route body p
  = (Normal tt,
     Signup.mkProgress (Signup.sent p ++ [plain 400 "Invalid gender."])
                       (Signup.effects p)).
Proof.
  intros Hfn Hln Hem Hph Hpw Hm Hf.
  unfold Signup.signup, Signup.try_catch, Signup.bind, Signup.call,
    Signup.send.
  rewrite Hfn, Hln, Hem, Hph, Hpw.
  destruct (Signup.listed_gender (Signup.b_gender body)) as [g|] eqn:Hg;
    [|reflexivity].
  apply listed_gender_iff in Hg as [Hg [-> | ->]]; contradiction.
Qed.

Variables firstName lastName email phone password gender : string.
Hypothesis passes :
  Signup.accepted body firstName lastName email phone password gender.

(** X17: when the store already has a user with the email, the request is
    answered 400 "Email is already registered." after that one lookup: no
    username or avatar is generated, nothing is hashed, nothing is saved. *)
Theorem signup_refuses_registered_email (existing : User) :
  User_findOne email = Normal (Some existing) ->
  route body p
  = (Normal tt,
     Signup.mkProgress
       (Signup.sent p ++ [plain 400 "Email is already registered."])
       (Signup.effects p ++ [Signup.LookupEmail email])).
Proof.
  intros Hf.
  exact (signup_taken _ generateUsername fetchAvatar bcrypt_hash save
           body p _ _ _ _ _ _ passes _ Hf).
Qed.

(** X18: when the checks pass, the email is free and every collaborator
    succeeds, the route looks the email up, generates the username from the
    email and the avatar from the gender, hashes the password with 10
    rounds, saves one document and answers 201. The saved document has the
    fields of the request, the hash in place of the password, and the role
    "user". *)
Theorem signup_creates_user (username avatar hashedPassword : string) :
  User_findOne email = Normal None ->
  generateUsername email = Normal username ->
  fetchAvatar gender = Normal avatar ->
  bcrypt_hash password 10 = Normal hashedPassword ->
  save (Signup.mkDocument firstName lastName email phone hashedPassword
          gender true username avatar "user") = Normal tt ->
  route body p
  = (Normal tt,
     Signup.mkProgress
       (Signup.sent p
        ++ [plain 201 "User successfully created. You can now log in."])
       (Signup.effects p
        ++ [Signup.LookupEmail email; Signup.GenerateUsername email;
            Signup.FetchAvatar gender; Signup.BcryptHash password 10;
            Signup.Save
              (Signup.mkDocument firstName lastName email phone
                 hashedPassword gender true username avatar "user")])).
Proof.
  intros Hf Hu Ha Hh Hs.
  exact (signup_created _ _ _ _ _ body p _ _ _ _ _ _ passes Hf
           _ Hu _ Ha _ Hh Hs).
Qed.

(** X19: when one of the five collaborators throws, the route answers 500
    with the message of the error as the body message, and completes. *)
Theorem signup_failure_reports_message (e : Exn) :
  Signup.raised User_findOne generateUsername fetchAvatar bcrypt_hash save
    firstName lastName email phone password gender e ->
  fst (route body p) = Normal tt
  /\ Signup.sent (snd (route body p))
     = (Signup.sent p ++ [plain 500 (exn_message e)])%list.
Proof.
  intros [x Hf | x Hf Hu | un x Hf Hu Ha | un av x Hf Hu Ha Hh
         | un av hp x Hf Hu Ha Hh Hs].
  - now rewrite (signup_lookup_throws _ generateUsername fetchAvatar
                   bcrypt_hash save body p _ _ _ _ _ _ passes _ Hf).
  - now rewrite (signup_username_throws _ _ fetchAvatar bcrypt_hash save
                   body p _ _ _ _ _ _ passes Hf _ Hu).
  - now rewrite (signup_avatar_throws _ _ _ bcrypt_hash save body p
                   _ _ _ _ _ _ passes Hf _ Hu _ Ha).
  - now rewrite (signup_hash_throws _ _ _ _ save body p _ _ _ _ _ _ passes
                   Hf _ Hu _ Ha _ Hh).
  - now rewrite (signup_save_throws _ _ _ _ _ body p _ _ _ _ _ _ passes
                   Hf _ Hu _ Ha _ Hh _ Hs).
Qed.

End SignupProperties.

Section SignupInvariants.

Variable User_findOne : string -> Completion (option User).
Variable generateUsername : string -> Completion string.
Variable fetchAvatar : string -> Completion string.
Variable bcrypt_hash : string -> Z -> Completion string.
Variable save : Signup.Document -> Completion unit.

Local Abbreviation route :=
  (Signup.signup User_findOne generateUsername fetchAvatar bcrypt_hash save).

Variable body : Signup.Body.
Variable p : Signup.Progress.

(** One goal per path of the signup route past the seven checks, the run
    rewritten with the path taken. *)
Ltac on_signup_path Hacc :=
  let existing := fresh "existing" in
  let username := fresh "username" in
  let avatar := fresh "avatar" in
  let hashedPassword := fresh "hashedPassword" in
  let e := fresh "e" in
  let Hf := fresh "Hf" in
  let Hu := fresh "Hu" in
  let Ha := fresh "Ha" in
  let Hh := fresh "Hh" in
  let Hs := fresh "Hs" in
  match type of Hacc with
  | Signup.accepted _ ?fn ?ln ?em ?ph ?pw ?g =>
    destruct (User_findOne em) as [[existing|]|e] eqn:Hf;
    [ rewrite (signup_taken _ generateUsername fetchAvatar bcrypt_hash save
                 body p _ _ _ _ _ _ Hacc _ Hf)
    | destruct (generateUsername em) as [username|e] eqn:Hu;
      [ destruct (fetchAvatar g) as [avatar|e] eqn:Ha;
        [ destruct (bcrypt_hash pw 10%Z) as [hashedPassword|e] eqn:Hh;
          [ destruct (save (Signup.mkDocument fn ln em ph hashedPassword g
                              true username avatar "user"))
              as [[]|e] eqn:Hs;
            [ rewrite (signup_created _ _ _ _ _ body p _ _ _ _ _ _ Hacc Hf
                         _ Hu _ Ha _ Hh Hs)
            | rewrite (signup_save_throws _ _ _ _ _ body p _ _ _ _ _ _ Hacc
                         Hf _ Hu _ Ha _ Hh _ Hs) ]
          | rewrite (signup_hash_throws _ _ _ _ save body p _ _ _ _ _ _ Hacc
                       Hf _ Hu _ Ha _ Hh) ]
        | rewrite (signup_avatar_throws _ _ _ bcrypt_hash save body p
                     _ _ _ _ _ _ Hacc Hf _ Hu _ Ha) ]
      | rewrite (signup_username_throws _ _ fetchAvatar bcrypt_hash save
                   body p _ _ _ _ _ _ Hacc Hf _ Hu) ]
    | rewrite (signup_lookup_throws _ generateUsername fetchAvatar
                 bcrypt_hash save body p _ _ _ _ _ _ Hacc _ Hf) ]
  end;
  cbn [fst snd Signup.sent Signup.effects].

(** What is known of a document that the route handed to [save]. *)
Lemma signup_save_inversion (cs : list Signup.Effect)
    (doc : Signup.Document) :
  Signup.effects (snd (route body p)) = (Signup.effects p ++ cs)%list ->
  In (Signup.Save doc) cs ->
  exists firstName lastName email phone password gender,
    Signup.accepted body firstName lastName email phone password gender
    /\ User_findOne email = Normal None
    /\ bcrypt_hash password 10 = Normal (Signup.d_password doc)
    /\ Signup.d_email doc = email
    /\ Signup.d_userRole doc = "user"
    /\ (Signup.d_gender doc = "Male" \/ Signup.d_gender doc = "Female").
Proof.
  destruct (signup_refused_or_accepted body)
    as [Hr | (fn & ln & em & ph & pw & g & Hacc)].
  - destruct (signup_refused User_findOne generateUsername fetchAvatar
                bcrypt_hash save body p Hr) as [msg ->].
    cbn [snd Signup.effects]. intros E.
    rewrite <- (app_nil_r (Signup.effects p)) in E at 1.
    apply app_inv_head in E. subst cs. intros [].
  - assert (g = "Male" \/ g = "Female") as Hgender
      by (destruct Hacc as (_ & _ & _ & _ & _ & Hg & _);
          now apply listed_gender_iff in Hg).
    on_signup_path Hacc; intros E; apply app_inv_head in E; subst cs;
      cbn [In]; intros Hin;
      repeat (destruct Hin as [Hin|Hin]; [try discriminate Hin|]);
      try contradiction;
      injection Hin as <-;
      exists fn, ln, em, ph, pw, g; (split; [exact Hacc|]);
      cbn; repeat split; assumption.
Qed.

(** X20: a document is handed to [save] only for a request that passed the
    seven checks and whose email the store did not have; the document then
    carries the email of the request, the role "user", a listed gender,
    and as password the result of hashing the request's password with 10
    rounds. *)
Theorem signup_saves_only_checked_requests (cs : list Signup.Effect)
    (doc : Signup.Document) :
  Signup.effects (snd (route body p)) = (Signup.effects p ++ cs)%list ->
  In (Signup.Save doc) cs ->
  exists firstName lastName email phone password gender,
    Signup.accepted body firstName lastName email phone password gender
    /\ User_findOne email = Normal None
    /\ bcrypt_hash password 10 = Normal (Signup.d_password doc)
    /\ Signup.d_email doc = email
    /\ Signup.d_userRole doc = "user"
    /\ (Signup.d_gender doc = "Male" \/ Signup.d_gender doc = "Female").
Proof. apply signup_save_inversion. Qed.

(** X21: the signup route always completes and sends exactly one response,
    with status 201, 400 or 500; it answers 201 only after a document was
    handed to [save] and [save] succeeded. *)
Theorem signup_answers_once :
  fst (route body p) = Normal tt
  /\ exists st msg,
       Signup.sent (snd (route body p))
       = (Signup.sent p ++ [plain st msg])%list
       /\ In st [201; 400; 500]%Z
       /\ (st = 201%Z ->
           exists doc,
             In (Signup.Save doc) (Signup.effects (snd (route body p)))
             /\ save doc = Normal tt).
Proof.
  destruct (signup_refused_or_accepted body)
    as [Hr | (fn & ln & em & ph & pw & g & Hacc)].
  - destruct (signup_refused User_findOne generateUsername fetchAvatar
                bcrypt_hash save body p Hr) as [msg ->].
    split; [reflexivity|]. exists 400%Z, msg. cbn.
    repeat split; [tauto | discriminate].
  - on_signup_path Hacc; (split; [reflexivity|]); eexists; eexists;
      (split; [reflexivity|]); (split; [cbn; tauto|]);
      try discriminate.
    intros _. eexists. split; [|exact Hs].
    apply in_or_app. right. cbn. tauto.
Qed.

End SignupInvariants.

(** ** Signup and the gate together *)

(** X22: self-registration gives no access to a restricted route. If a
    document was saved by the signup route and the store later returns,
    for a verified token, a user with the role of that document, then a
    gate whose non-empty allowed-role list does not contain "user" answers
    403 and does not invoke the downstream operation. *)
Theorem signed_up_user_is_refused_elsewhere
    User_findOne generateUsername fetchAvatar bcrypt_hash save
    (body : Signup.Body) (p : Signup.Progress) (cs : list Signup.Effect)
    (doc : Signup.Document)
    secret jwt_verify User_findById (allowedRoles : list string)
    (req : Request) (next : option User -> Completion unit) (h : Handling)
    (token : string) (decoded : Claims) (stored : User) :
  Signup.effects
    (snd (Signup.signup User_findOne generateUsername fetchAvatar
            bcrypt_hash save body p))
  = (Signup.effects p ++ cs)%list ->
  In (Signup.Save doc) cs ->
  JS.truthy (bearer_token req) = Some token ->
  jwt_verify token secret = Normal decoded ->
  User_findById (userId decoded) = Normal (Some stored) ->
  userRole stored = Signup.d_userRole doc ->
  allowedRoles <> [] ->
  ~ In "user" allowedRoles ->
  res_sent (snd (protect secret jwt_verify User_findById allowedRoles
                   req next h))
  = (res_sent h
     ++ [plain 403 "Access forbidden: Insufficient privileges"])%list
  /\ invoked (snd (protect secret jwt_verify User_findById allowedRoles
                     req next h))
     = invoked h.
Proof.
  intros He Hin Htok Hv Hf Hrole Hne Hn.
  destruct (signup_save_inversion _ _ _ _ _ _ _ _ _ He Hin)
    as (fn & ln & em & ph & pw & g & _ & _ & _ & _ & Hu & _).
  assert (role_refused allowedRoles stored = true) as Hr.
  { apply role_refused_iff. split; [assumption|].
    now rewrite Hrole, Hu. }
  rewrite (protect_forbidden _ _ _ _ _ _ _ _ Htok _ Hv _ Hf Hr).
  cbn [snd res_sent]. split; [reflexivity|].
  now apply invoked_same.
Qed.

(* ================================================================= *)
(** ** The further properties on concrete requests *)

Lemma demo_user_only_excludes_nobody : In "user" ["user"].
Proof. now left. Defined.

(** A route for the role "user", the token of a user with that role. *)
Lemma downstream_only_when_authorized_witness :
  exists token decoded user,
    JS.truthy (bearer_token (Demo.bearer Demo.alice_token)) = Some token
    /\ TokenCodec.verify Demo.mac 1000 token GateDemo.secret = Normal decoded
    /\ Demo.findById Demo.users (userId decoded) = Normal (Some user)
    /\ (["user"] = [] \/ In (userRole user) ["user"])
    /\ invoked (snd (Demo.gate 1000 Demo.users ["user"]
                       (Demo.bearer Demo.alice_token) Demo.proceed))
       = (invoked fresh ++ [Some user])%list.
Proof.
  apply (downstream_only_when_authorized GateDemo.secret
           (TokenCodec.verify Demo.mac 1000) (Demo.findById Demo.users)
           ["user"] Demo.proceed fresh (Demo.bearer Demo.alice_token)).
  vm_compute. discriminate.
Defined.

Lemma listed_role_passes_witness :
  invoked (snd (Demo.gate 1000 Demo.users ["admin"; "user"]
                  (Demo.bearer Demo.alice_token) Demo.proceed))
  = [Some Demo.alice].
Proof.
  assert (JS.truthy (bearer_token (Demo.bearer Demo.alice_token))
          = Some Demo.alice_token) as Htok by (vm_compute; reflexivity).
  assert (TokenCodec.verify Demo.mac 1000 Demo.alice_token GateDemo.secret
          = Normal Demo.alice_claims) as Hv by (vm_compute; reflexivity).
  assert (Demo.findById Demo.users (userId Demo.alice_claims)
          = Normal (Some Demo.alice)) as Hf by (vm_compute; reflexivity).
  assert (In (userRole Demo.alice) ["admin"; "user"]) as Hin
    by (right; left; reflexivity).
  exact (proj1
    (listed_role_passes GateDemo.secret (TokenCodec.verify Demo.mac 1000)
       (Demo.findById Demo.users) ["admin"; "user"] Demo.proceed fresh
       (Demo.bearer Demo.alice_token) Demo.alice_token Demo.alice_claims
       Demo.alice Htok Hv Hf Hin)).
Defined.

Lemma req_user_written_only_on_lookup_witness :
  exists token decoded user,
    JS.truthy (bearer_token (Demo.bearer Demo.alice_token)) = Some token
    /\ TokenCodec.verify Demo.mac 1000 token GateDemo.secret = Normal decoded
    /\ Demo.findById Demo.users (userId decoded) = Normal (Some user)
    /\ req_user (snd (Demo.gate 1000 Demo.users ["admin"]
                        (Demo.bearer Demo.alice_token) Demo.proceed))
       = Some user.
Proof.
  apply (req_user_written_only_on_lookup GateDemo.secret
           (TokenCodec.verify Demo.mac 1000) (Demo.findById Demo.users)
           ["admin"] Demo.proceed fresh (Demo.bearer Demo.alice_token)).
  vm_compute. discriminate.
Defined.

(** The token that claims "admin" is refused on an admin-only route like
    the one that claims "user": the store says "user". *)
Lemma token_role_is_ignored_witness :
  res_sent (snd (Demo.gate 1000 Demo.users ["admin"]
                   (Demo.bearer GateDemo.stale_token) Demo.proceed))
  = res_sent (snd (Demo.gate 1000 Demo.users ["admin"]
                     (Demo.bearer Demo.alice_token) Demo.proceed)).
Proof.
  assert (JS.truthy (bearer_token (Demo.bearer GateDemo.stale_token))
          = Some GateDemo.stale_token) as Ht1 by (vm_compute; reflexivity).
  assert (JS.truthy (bearer_token (Demo.bearer Demo.alice_token))
          = Some Demo.alice_token) as Ht2 by (vm_compute; reflexivity).
  assert (TokenCodec.verify Demo.mac 1000 GateDemo.stale_token
            GateDemo.secret = Normal GateDemo.stale_claims) as Hv1
    by (vm_compute; reflexivity).
  assert (TokenCodec.verify Demo.mac 1000 Demo.alice_token GateDemo.secret
          = Normal Demo.alice_claims) as Hv2 by (vm_compute; reflexivity).
  assert (userId GateDemo.stale_claims = userId Demo.alice_claims) as Hid
    by reflexivity.
  exact (proj1 (proj2
    (token_role_is_ignored GateDemo.secret (TokenCodec.verify Demo.mac 1000)
       (Demo.findById Demo.users) ["admin"] Demo.proceed fresh
       (Demo.bearer GateDemo.stale_token) (Demo.bearer Demo.alice_token)
       GateDemo.stale_token Demo.alice_token
       GateDemo.stale_claims Demo.alice_claims Ht1 Ht2 Hv1 Hv2 Hid))).
Defined.

Lemma scheme_word_not_checked_witness :
  Demo.gate 1000 Demo.users [] GateDemo.other_scheme Demo.proceed
  = Demo.gate 1000 Demo.users [] (Demo.bearer Demo.alice_token) Demo.proceed
  /\ Demo.gate 1000 Demo.users [] GateDemo.trailing_text Demo.proceed
     = Demo.gate 1000 Demo.users [] (Demo.bearer Demo.alice_token)
         Demo.proceed.
Proof.
  apply (scheme_word_not_checked GateDemo.secret
           (TokenCodec.verify Demo.mac 1000) (Demo.findById Demo.users)
           [] Demo.proceed fresh "Token" Demo.alice_token "extra"
           None None None None);
    vm_compute; reflexivity.
Defined.

Lemma double_space_loses_token_witness :
  Demo.gate 1000 Demo.users [] GateDemo.two_spaces Demo.proceed
  = (Normal tt,
     mkHandling (req_user fresh)
       (res_sent fresh ++ [plain 401 "Authorization token required"])
       (calls fresh)).
Proof.
  apply (double_space_loses_token GateDemo.secret
           (TokenCodec.verify Demo.mac 1000) (Demo.findById Demo.users)
           [] Demo.proceed fresh "Bearer" Demo.alice_token None None).
  reflexivity.
Defined.

(** The 404 of the token whose user is not in the store. *)
Lemma refusal_status_tells_the_path_witness :
  exists token decoded,
    JS.truthy (bearer_token (Demo.bearer Demo.ghost_token)) = Some token
    /\ TokenCodec.verify Demo.mac 1000 token GateDemo.secret = Normal decoded
    /\ Demo.findById Demo.users (userId decoded) = Normal None.
Proof.
  assert (res_sent (snd (protect GateDemo.secret
                           (TokenCodec.verify Demo.mac 1000)
                           (Demo.findById Demo.users) []
                           (Demo.bearer Demo.ghost_token) Demo.proceed fresh))
          = (res_sent fresh ++ [plain 404 "User not found"])%list) as E
    by (vm_compute; reflexivity).
  exact (proj1
    (refusal_status_tells_the_path GateDemo.secret
       (TokenCodec.verify Demo.mac 1000) (Demo.findById Demo.users) []
       Demo.proceed fresh (Demo.bearer Demo.ghost_token) 404%Z
       "User not found" E) eq_refl).
Defined.

Lemma login_requires_both_fields_witness :
  exists msg,
    GateDemo.run_login (Demo.findOne Demo.users) GateDemo.no_password
    = (Normal tt,
       mkHandling (req_user fresh) (res_sent fresh ++ [plain 400 msg])
                  (calls fresh))
    /\ In msg ["Email is required."; "Password is required."].
Proof.
  apply (login_requires_both_fields Demo.mac Demo.cfg 1000
           (Demo.findOne Demo.users) Demo.compare GateDemo.no_password
           fresh).
  right. reflexivity.
Defined.

Lemma login_succeeds_only_on_match_witness :
  exists mail pw user,
    JS.truthy (body_email GateDemo.alice_login) = Some mail
    /\ JS.truthy (body_password GateDemo.alice_login) = Some pw
    /\ Demo.findOne Demo.users mail = Normal (Some user)
    /\ Demo.compare pw (password user) = Normal true
    /\ GateDemo.alice_welcome
       = mkResponse 200 "Login successful."
           (Some (TokenCodec.generateAccessToken Demo.mac Demo.cfg 1000
                    (_id user) (userRole user)))
           (Some (profile_of user)).
Proof.
  apply (login_succeeds_only_on_match Demo.mac Demo.cfg 1000
           (Demo.findOne Demo.users) Demo.compare GateDemo.alice_login
           fresh GateDemo.alice_welcome).
  - vm_compute. reflexivity.
  - reflexivity.
Defined.

(** The store cannot be reached during a login. *)
Lemma login_failure_reports_message_witness :
  fst (GateDemo.run_login Demo.unreachable GateDemo.alice_login) = Normal tt
  /\ res_sent (snd (GateDemo.run_login Demo.unreachable GateDemo.alice_login))
     = (res_sent fresh
        ++ [plain 500 (exn_message (Error "connection refused"))])%list.
Proof.
  apply (login_failure_reports_message Demo.mac Demo.cfg 1000
           Demo.unreachable Demo.compare GateDemo.alice_login fresh
           "alice@example.org" "alicehash" (Error "connection refused")).
  - reflexivity.
  - reflexivity.
  - left. reflexivity.
Defined.

(** Login at 1000, the token presented at 1900 on an open route. *)
Lemma login_token_opens_gate_witness :
  exists token profile,
    res_sent (snd (GateDemo.run_login (Demo.findOne Demo.users)
                     GateDemo.alice_login))
    = (res_sent fresh
       ++ [mkResponse 200 "Login successful." (Some token) profile])%list
    /\ invoked
         (snd (protect (TokenCodec.access_secret Demo.cfg)
                 (TokenCodec.verify Demo.mac 1900)
                 (Demo.findById Demo.users) []
                 (mkRequest (Some ("Bearer " ++ token)) None None)
                 Demo.proceed fresh))
       = (invoked fresh ++ [Some Demo.alice])%list.
Proof.
  apply (login_token_opens_gate Demo.mac Demo.cfg 1000 1900
           (Demo.findOne Demo.users) Demo.compare (Demo.findById Demo.users)
           GateDemo.alice_login fresh fresh "alice@example.org" "alicehash"
           Demo.alice Demo.alice [] Demo.proceed None None).
  - reflexivity.
  - reflexivity.
  - vm_compute. reflexivity.
  - vm_compute. reflexivity.
  - vm_compute. discriminate.
  - vm_compute. reflexivity.
  - left. reflexivity.
Defined.

Lemma demo_body_accepted :
  Signup.accepted SignupDemo.body "Bob" "Baker" "bob@example.org"
    "555-0102" "hunter2" "Male".
Proof. repeat split. Defined.

Lemma demo_taken_accepted :
  Signup.accepted SignupDemo.taken "Bob" "Baker" "alice@example.org"
    "555-0102" "hunter2" "Male".
Proof. repeat split. Defined.

(** The gender in lower case fails the sixth check. *)
Lemma signup_rejects_before_any_call_witness :
  exists msg,
    SignupDemo.route SignupDemo.store SignupDemo.lower_case_gender
    = (Normal tt,
       Signup.mkProgress (Signup.sent Signup.start ++ [plain 400 msg])
                         (Signup.effects Signup.start))
    /\ In msg ["First Name is required."; "Last Name is required.";
               "Email is required."; "Phone number is required.";
               "Password is required."; "Invalid gender.";
               "Terms must be accepted."].
Proof.
  apply (signup_rejects_before_any_call (Demo.findOne Demo.users)
           SignupDemo.username_of SignupDemo.avatar_of SignupDemo.hash
           SignupDemo.store SignupDemo.lower_case_gender Signup.start).
  do 5 right. left. reflexivity.
Defined.

Lemma signup_gender_must_be_listed_witness :
  SignupDemo.route SignupDemo.store SignupDemo.lower_case_gender
  = (Normal tt,
     Signup.mkProgress
       (Signup.sent Signup.start ++ [plain 400 "Invalid gender."])
       (Signup.effects Signup.start)).
Proof.
  apply (signup_gender_must_be_listed (Demo.findOne Demo.users)
           SignupDemo.username_of SignupDemo.avatar_of SignupDemo.hash
           SignupDemo.store SignupDemo.lower_case_gender Signup.start
           "Bob" "Baker" "bob@example.org" "555-0102" "hunter2");
    try reflexivity; discriminate.
Defined.

Lemma signup_refuses_registered_email_witness :
  SignupDemo.route SignupDemo.store SignupDemo.taken
  = (Normal tt,
     Signup.mkProgress
       (Signup.sent Signup.start
        ++ [plain 400 "Email is already registered."])
       (Signup.effects Signup.start
        ++ [Signup.LookupEmail "alice@example.org"])).
Proof.
  apply (signup_refuses_registered_email (Demo.findOne Demo.users)
           SignupDemo.username_of SignupDemo.avatar_of SignupDemo.hash
           SignupDemo.store SignupDemo.taken Signup.start
           "Bob" "Baker" "alice@example.org" "555-0102" "hunter2" "Male"
           demo_taken_accepted Demo.alice).
  vm_compute. reflexivity.
Defined.

Lemma signup_creates_user_witness :
  SignupDemo.route SignupDemo.store SignupDemo.body
  = (Normal tt,
     Signup.mkProgress
       (Signup.sent Signup.start
        ++ [plain 201 "User successfully created. You can now log in."])
       (Signup.effects Signup.start
        ++ [Signup.LookupEmail "bob@example.org";
            Signup.GenerateUsername "bob@example.org";
            Signup.FetchAvatar "Male"; Signup.BcryptHash "hunter2" 10;
            Signup.Save SignupDemo.bob])).
Proof.
  apply (signup_creates_user (Demo.findOne Demo.users)
           SignupDemo.username_of SignupDemo.avatar_of SignupDemo.hash
           SignupDemo.store SignupDemo.body Signup.start
           "Bob" "Baker" "bob@example.org" "555-0102" "hunter2" "Male"
           demo_body_accepted "user-bob@example.org" "Male.png"
           "$2a$10$hunter2");
    vm_compute; reflexivity.
Defined.

(** The store refuses the write. *)
Lemma signup_failure_reports_message_witness :
  fst (SignupDemo.route SignupDemo.full SignupDemo.body) = Normal tt
  /\ Signup.sent (snd (SignupDemo.route SignupDemo.full SignupDemo.body))
     = (Signup.sent Signup.start
        ++ [plain 500 (exn_message (Error "disk quota exceeded"))])%list.
Proof.
  apply (signup_failure_reports_message (Demo.findOne Demo.users)
           SignupDemo.username_of SignupDemo.avatar_of SignupDemo.hash
           SignupDemo.full SignupDemo.body Signup.start
           "Bob" "Baker" "bob@example.org" "555-0102" "hunter2" "Male"
           demo_body_accepted (Error "disk quota exceeded")).
  apply Signup.raised_by_save
    with (username := "user-bob@example.org") (avatar := "Male.png")
         (hashedPassword := "$2a$10$hunter2");
    vm_compute; reflexivity.
Defined.

Lemma signup_saves_only_checked_requests_witness :
  exists firstName lastName email phone password gender,
    Signup.accepted SignupDemo.body firstName lastName email phone password
      gender
    /\ Demo.findOne Demo.users email = Normal None
    /\ SignupDemo.hash password 10
       = Normal (Signup.d_password SignupDemo.bob)
    /\ Signup.d_email SignupDemo.bob = email
    /\ Signup.d_userRole SignupDemo.bob = "user"
    /\ (Signup.d_gender SignupDemo.bob = "Male"
        \/ Signup.d_gender SignupDemo.bob = "Female").
Proof.
  apply (signup_saves_only_checked_requests (Demo.findOne Demo.users)
           SignupDemo.username_of SignupDemo.avatar_of SignupDemo.hash
           SignupDemo.store SignupDemo.body Signup.start
           [Signup.LookupEmail "bob@example.org";
            Signup.GenerateUsername "bob@example.org";
            Signup.FetchAvatar "Male"; Signup.BcryptHash "hunter2" 10;
            Signup.Save SignupDemo.bob] SignupDemo.bob).
  - vm_compute. reflexivity.
  - do 4 right. left. reflexivity.
Defined.

(** Bob signs up; later a token of his is presented on an admin-only
    route, the store holding him with the role of the saved document. *)
Lemma signed_up_user_is_refused_elsewhere_witness :
  let stored := mkUser "u3" "Bob" "Baker" "bob@example.org"
                  "user-bob@example.org" "Male.png" "555-0102"
                  (Signup.d_userRole SignupDemo.bob) "$2a$10$hunter2" in
  let token := TokenCodec.generateAccessToken Demo.mac Demo.cfg 1000
                 "u3" "user" in
  let out := Demo.gate 1000 [stored] ["admin"] (Demo.bearer token)
               Demo.proceed in
  res_sent (snd out)
  = (res_sent fresh
     ++ [plain 403 "Access forbidden: Insufficient privileges"])%list
  /\ invoked (snd out) = invoked fresh.
Proof.
  intros stored token out.
  apply (signed_up_user_is_refused_elsewhere (Demo.findOne Demo.users)
           SignupDemo.username_of SignupDemo.avatar_of SignupDemo.hash
           SignupDemo.store SignupDemo.body Signup.start
           [Signup.LookupEmail "bob@example.org";
            Signup.GenerateUsername "bob@example.org";
            Signup.FetchAvatar "Male"; Signup.BcryptHash "hunter2" 10;
            Signup.Save SignupDemo.bob] SignupDemo.bob
           GateDemo.secret (TokenCodec.verify Demo.mac 1000)
           (Demo.findById [stored]) ["admin"] (Demo.bearer token)
           Demo.proceed fresh token
           (mkClaims "u3" (Some "user") 1000 1900) stored).
  - vm_compute. reflexivity.
  - do 4 right. left. reflexivity.
  - vm_compute. reflexivity.
  - vm_compute. reflexivity.
  - vm_compute. reflexivity.
  - reflexivity.
  - exact demo_admin_only_not_empty.
  - exact demo_admin_only_excludes_user.
Defined.

(** A wrong password for a known email: one lookup, one comparison. *)
Lemma login_compares_only_for_known_email_witness :
  exists mail user,
    JS.truthy (body_email (Demo.credentials "alice@example.org" "guess"))
    = Some mail
    /\ JS.truthy
         (body_password (Demo.credentials "alice@example.org" "guess"))
       = Some "guess"
    /\ Demo.findOne Demo.users mail = Normal (Some user)
    /\ "$2a$10$alicehash" = password user
    /\ [FindOne "alice@example.org";
        BcryptCompare "guess" "$2a$10$alicehash"]
       = [FindOne mail; BcryptCompare "guess" "$2a$10$alicehash"].
Proof.
  apply (login_compares_only_for_known_email Demo.mac Demo.cfg 1000
           (Demo.findOne Demo.users) Demo.compare
           (Demo.credentials "alice@example.org" "guess") fresh
           [FindOne "alice@example.org";
            BcryptCompare "guess" "$2a$10$alicehash"]
           "guess" "$2a$10$alicehash").
  - vm_compute. reflexivity.
  - right. left. reflexivity.
Defined.

(** The body [{ "email": ..., "password": 12345 }], for an email that is
    not registered and for one that is. *)
Lemma login_reveals_registration_when_compare_throws_witness :
  LoginJson.sent (snd (LoginJson.run (LoginJson.numeric "nobody@example.org")))
  = [plain 400 "Invalid credentials."]
  /\ LoginJson.sent
       (snd (LoginJson.run (LoginJson.numeric "alice@example.org")))
     = [plain 500 "Illegal arguments: number, string"]
  /\ LoginJson.sent
       (snd (LoginJson.run (LoginJson.numeric "nobody@example.org")))
     <> LoginJson.sent
          (snd (LoginJson.run (LoginJson.numeric "alice@example.org"))).
Proof.
  apply (login_reveals_registration_when_compare_throws Demo.mac Demo.cfg
           1000 (Demo.findOne Demo.users)
           (LoginJson.compare_any Demo.compare)
           (LoginJson.numeric "nobody@example.org")
           (LoginJson.numeric "alice@example.org") LoginJson.start
           "nobody@example.org" "alice@example.org"
           (LoginJson.Number 12345) Demo.alice
           (Error "Illegal arguments: number, string"));
    reflexivity.
Defined.
